(** * The /run endpoint of the playground backend

    A shallow embedding of the Express handler [app.post('/run', ...)] of the
    backend server: request validation, allocation of a per-request
    temporary directory, staging of the contract and test files, the docker
    invocation through [child_process.exec], the append-only docker output
    log, the cleanup of the temporary directory and the response.

    The file system, the clock, the random generator, the shell and the
    docker process are the environment of the handler.  They are modelled
    as an explicit world state (directories, files, appended log records)
    and a record of oracles that fixes what the environment answers during
    one request. *)

From Stdlib Require Import Ascii String DecimalString DecimalN NArith List.
From stdpp Require Import base gmap sets list strings.

(** ** JavaScript strings *)

Module Js.

Definition quote : string := String (ascii_of_nat 34) "".
Definition nl : string := String (ascii_of_nat 10) "".

(** Truthiness of a string value: only the empty string is falsy. *)
Definition truthy (s : string) : bool :=
  match s with
  | "" => false
  | String _ _ => true
  end.

(** Truthiness of an object property that holds a string when present;
    [None] is the property being absent ([undefined]). *)
Definition truthy_field (f : option string) : bool :=
  match f with
  | None => false
  | Some s => truthy s
  end.

(** [a || b] on strings. *)
Definition or_else (a b : string) : string := if truthy a then a else b.

(** Template interpolation of a non-negative integer: its decimal digits. *)
Definition of_number (n : N) : string :=
  NilEmpty.string_of_uint (N.to_uint n).

(** The digits of [Number.prototype.toString(36)]. *)
Definition base36 : list ascii :=
  list_ascii_of_string "0123456789abcdefghijklmnopqrstuvwxyz".

Definition digit36 (d : nat) : ascii := nth (d mod 36) base36 "0"%char.

(** [s.includes(c)] for a single character. *)
Fixpoint has_char (c : ascii) (s : string) : bool :=
  match s with
  | "" => false
  | String a r => Ascii.eqb a c || has_char c r
  end.

(** [s.includes(sub)]. *)
Definition includes (s sub : string) : Prop :=
  ∃ pre post, s = pre +:+ sub +:+ post.

Fixpoint of_chars (l : list ascii) : string :=
  match l with
  | [] => ""
  | c :: r => String c (of_chars r)
  end.

End Js.

(** ** The [path] module (POSIX flavour) *)

Module Path.

Definition is_slash (c : ascii) : bool := Ascii.eqb c "/"%char.

Definition has_slash (s : string) : bool := Js.has_char "/"%char s.

(** [s.split('/')]: the pieces between separators, empty pieces kept. *)
Fixpoint split_slash (s : string) : list string :=
  match s with
  | "" => [""]
  | String c r =>
      if is_slash c then "" :: split_slash r
      else match split_slash r with
           | h :: t => String c h :: t
           | [] => [String c ""]
           end
  end.

Fixpoint join_slash (l : list string) : string :=
  match l with
  | [] => ""
  | x :: r =>
      match r with
      | [] => x
      | _ :: _ => x +:+ "/" +:+ join_slash r
      end
  end.

Definition starts_with_slash (s : string) : bool :=
  match s with
  | "" => false
  | String c _ => is_slash c
  end.

Fixpoint ends_with_slash (s : string) : bool :=
  match s with
  | "" => false
  | String c "" => is_slash c
  | String _ r => ends_with_slash r
  end.

(** One segment of [normalizeString].  The result built so far is kept as
    a stack of segments, last segment first.  Empty segments and [.] are
    skipped; [..] removes the last segment unless there is none or it is
    itself [..], in which case it is kept only when the path may climb
    above its root. *)
Definition normalize_step (allowAboveRoot : bool)
    (stack : list string) (seg : string) : list string :=
  if bool_decide (seg = "") || bool_decide (seg = ".") then stack
  else if bool_decide (seg = "..") then
    match stack with
    | top :: rest =>
        if bool_decide (top = "..")
        then (if allowAboveRoot then ".." :: stack else stack)
        else rest
    | [] => if allowAboveRoot then [".."] else []
    end
  else seg :: stack.

Definition normalizeString (segs : list string) (allowAboveRoot : bool)
    : list string :=
  rev (fold_left (normalize_step allowAboveRoot) segs []).

(** The components of an absolute path once normalized. *)
Definition resolve (p : string) : list string :=
  normalizeString (split_slash p) false.

(** [path.normalize]. *)
Definition normalize (p : string) : string :=
  if Js.truthy p then
    let isAbsolute := starts_with_slash p in
    let trailingSeparator := ends_with_slash p in
    let body := join_slash (normalizeString (split_slash p) (negb isAbsolute)) in
    if Js.truthy body then
      let body := if trailingSeparator then body +:+ "/" else body in
      if isAbsolute then "/" +:+ body else body
    else if isAbsolute then "/"
    else if trailingSeparator then "./" else "."
  else ".".

(** [path.join(...args)]: the non-empty arguments joined by [/], then
    normalized; [.] when there is nothing to join. *)
Definition join (args : list string) : string :=
  match filter (λ a, Js.truthy a = true) args with
  | [] => "."
  | parts => normalize (join_slash parts)
  end.

(** The components of a path as the file system resolves them. *)
Definition segments (p : string) : list string :=
  filter (λ s, Js.truthy s = true) (split_slash p).

(** The absolute path made of the given components. *)
Definition render (segs : list string) : string := "/" +:+ join_slash segs.

(** [inside root p]: [p] is [root] or lies below it. *)
Definition inside (root p : string) : bool :=
  bool_decide (segments root `prefix_of` segments p).

(** The directory that holds [p]. *)
Definition parent (p : string) : string := render (removelast (segments p)).

(** [p] and every directory above it, as [mkdir -p] visits them. *)
Definition ancestors (p : string) : list string :=
  map (λ k, render (take k (segments p))) (seq 0 (S (length (segments p)))).

(** A segment that [normalizeString] keeps as it is. *)
Definition plain (s : string) : bool :=
  Js.truthy s && negb (has_slash s)
  && negb (bool_decide (s = ".")) && negb (bool_decide (s = "..")).

End Path.

(** ** The world the handler acts on *)

(** The file system as far as the handler touches it: the directories that
    exist, the regular files other than the docker output log with their
    contents, and the records that the server has appended so far to
    [tmp/docker_output.log].  The log is kept apart from [files]: the
    handler only ever appends to it, and each element of [log] is the text
    of one [appendFileSync] call that went through, in the order of the
    calls.  No other call of the handler reaches that file: the staged
    files are named [*.py], and the directory that the cleanup removes is
    another entry of [tmp].  So [log] is the record of what the handler
    appended; what a process that the handler starts does to the log file
    is not followed. *)
Record World := {
  dirs : gset string;
  files : gmap string string;
  log : list string
}.

Definition set_dirs (d : gset string) (w : World) : World :=
  {| dirs := d; files := files w; log := log w |}.
Definition set_files (f : gmap string string) (w : World) : World :=
  {| dirs := dirs w; files := f; log := log w |}.
Definition set_log (l : list string) (w : World) : World :=
  {| dirs := dirs w; files := files w; log := l |}.

(** What [exec] hands to its callback. [error] holds [error.message] when
    the process could not be run or exited with a non-zero code. *)
Record ExecResult := {
  error : option string;
  stdout : string;
  stderr : string
}.

(** The docker process either exits, and the callback of [exec] is invoked
    with its result, or it never does. *)
Inductive Process :=
| Exits (r : ExecResult)
| RunsForever.

(** The answers of the environment during one request. A fault is the
    message of the exception the call throws there. Node sets [__dirname]
    to the absolute path of the directory of the running script.

    [exec(command, callback)] hands the command string to [/bin/sh -c].
    What the shell and the programs it starts do with that string is not
    the handler's code: [sh command files] is the content of the regular
    files (the docker output log apart) by the time the process exits,
    given their content when it started, and [docker] is what the callback
    receives.  For the command
    of the handler the shell starts [docker run] with two bind mounts; as
    the entry name is pasted into the command between double quotes, a
    name such as [$(touch pwned)] makes the shell run a command of the
    client's choice, and [sh] is then whatever that command does.  The
    process is followed on the regular files only; directories that it
    makes or removes are not tracked. *)
Record Env := {
  dirname : string;                       (* __dirname *)
  dirname_absolute : Path.starts_with_slash dirname = true;
  date_now : N;                           (* Date.now() *)
  random_digits : list nat;               (* base-36 digits of Math.random() after the point *)
  iso_time : string;                      (* new Date().toISOString() *)
  mkdir_fault : string → option string;   (* fs.mkdirSync at a path *)
  write_fault : string → option string;   (* fs.writeFileSync at a path *)
  append_fault : option string;           (* fs.appendFileSync on the log *)
  rm_fault : string → option string;      (* fs.rmSync at a path *)
  docker : Process;                       (* the process started by exec *)
  sh : string → gmap string string → gmap string string
                                          (* the files once /bin/sh has run a command *)
}.

(** ** Exceptions and state *)

(** A computation reads and changes the world, and either returns a value
    or throws the message of an exception. *)

Inductive Result (A : Type) :=
| Ok (a : A)
| Throw (msg : string).
Arguments Ok {A} a.
Arguments Throw {A} msg.

Definition M (A : Type) : Type := World → Result A * World.

Definition ret {A} (a : A) : M A := λ w, (Ok a, w).
Definition throw {A} (msg : string) : M A := λ w, (Throw msg, w).
Definition bind {A B} (m : M A) (k : A → M B) : M B :=
  λ w, match m w with
       | (Ok a, w') => k a w'
       | (Throw e, w') => (Throw e, w')
       end.

Notation "'do!' m 'in' k" := (bind m (λ _, k))
  (at level 10, m at level 100, k at level 200, only parsing).

(** ** The [fs] module *)

Module Fs.

Definition existsSync (p : string) (w : World) : bool :=
  bool_decide (p ∈ dirs w) || bool_decide (is_Some (files w !! p)).

(** [fs.mkdirSync(p, { recursive: true })]: creates [p] and the missing
    directories above it; an existing directory is not an error. *)
Definition mkdirSync (fault : option string) (p : string) : M unit :=
  λ w, match fault with
       | Some e => throw e w
       | None => (Ok (), set_dirs (dirs w ∪ list_to_set (Path.ancestors p)) w)
       end.

(** [fs.writeFileSync(p, data)]: creates or replaces the file. The
    directory that holds it must exist; every other failure of the call
    is the environment's. *)
Definition writeFileSync (fault : option string) (p data : string) : M unit :=
  λ w, match fault with
       | Some e => throw e w
       | None =>
           if bool_decide (Path.parent p ∈ dirs w)
           then (Ok (), set_files (<[p := data]> (files w)) w)
           else throw ("ENOENT: no such file or directory, open '" +:+ p +:+ "'") w
       end.

(** [fs.appendFileSync] on the docker output log. *)
Definition appendFileSync (fault : option string) (data : string) : M unit :=
  λ w, match fault with
       | Some e => throw e w
       | None => (Ok (), set_log (log w ++ [data]) w)
       end.

(** [fs.rmSync(p, { recursive: true, force: true })]: removes [p] and
    everything below it; a missing [p] is not an error. *)
Definition rmSync (fault : option string) (p : string) : M unit :=
  λ w, match fault with
       | Some e => throw e w
       | None =>
           (Ok (),
            set_files (filter (λ kv, Path.inside p kv.1 = false) (files w))
              (set_dirs (filter (λ q, Path.inside p q = false) (dirs w)) w))
       end.

End Fs.

(** ** Requests and responses *)

(** The body of a request after [express.json()]: each of the three
    properties is a string or absent. *)
Record Request := {
  contractCode : option string;
  testCode : option string;
  entryName : option string
}.

Inductive Body :=
| Text (s : string)                      (* res.send(string) *)
| Json (o : list (string * string)).     (* res.json({ key: string, ... }) *)

Record Response := {
  statusCode : N;
  body : Body
}.

(** The request that carries the three properties. *)
Definition request (contractCode testCode entryName : string) : Request :=
  {| contractCode := Some contractCode;
     testCode := Some testCode;
     entryName := Some entryName |}.

(** A required property that the request does not carry, or carries as the
    empty string. *)
Definition absent_or_empty (f : option string) : Prop :=
  f = None ∨ f = Some "".

(** A request ends with a response, or the handler is still waiting for the
    callback of [exec]. *)
Inductive Outcome :=
| Responded (r : Response)
| NoResponse.

(** ** The handler of [POST /run] *)

Section Handler.

Variable env : Env.

(** [Math.random().toString(36).substring(2, 15)]: at most thirteen
    base-36 digits, none when the random number is zero. *)
Definition randomId : string :=
  Js.of_chars (map Js.digit36 (take 13 (random_digits env))).

Definition tmpDir : string := Path.join [dirname env; "tmp"].

(** The template [`${timestamp}_${randomId}`]. *)
Definition workspaceName : string :=
  Js.of_number (date_now env) +:+ "_" +:+ randomId.

Definition uniqueTempDir : string :=
  Path.join [dirname env; "tmp"; workspaceName].

(** The file whose appended records [log] holds. *)
Definition logFile : string := Path.join [dirname env; "tmp"; "docker_output.log"].

Definition contractFile (entryName : string) : string :=
  Path.join [uniqueTempDir; entryName +:+ ".py"].

Definition testFile : string := Path.join [uniqueTempDir; "test.py"].

Definition contractMountPath (entryName : string) : string :=
  "/app/hathor/nanocontracts/blueprints/" +:+ entryName +:+ ".py".

Definition testMountPath : string := "/app/tests/nanocontracts/blueprints/test.py".

Definition dockerCommand (entryName : string) : string :=
  "docker run --rm " +:+
  "-v " +:+ Js.quote +:+ contractFile entryName +:+ ":" +:+ contractMountPath entryName +:+ Js.quote +:+ " " +:+
  "-v " +:+ Js.quote +:+ testFile +:+ ":" +:+ testMountPath +:+ Js.quote +:+ " " +:+
  "obiyankenobi/hathor-core-test-image " +:+
  "-v tests/nanocontracts/blueprints/test.py".

(** The body of the [try] block up to the call of [exec]: the temporary
    directory is created, then the two files are written. The variable
    [uniqueTempDir] is assigned before the first call that can throw, so
    the [catch] block always sees the path. *)
Definition stage (contractCode testCode entryName : string) : M string :=
  do! Fs.mkdirSync (mkdir_fault env uniqueTempDir) uniqueTempDir in
  do! Fs.writeFileSync (write_fault env (contractFile entryName))
        (contractFile entryName) contractCode in
  do! Fs.writeFileSync (write_fault env testFile) testFile testCode in
  ret (dockerCommand entryName).

Definition logContent (entryName : string) (r : ExecResult) : string :=
  Js.nl +:+
  "=== Docker Execution Log ===" +:+ Js.nl +:+
  "Timestamp: " +:+ iso_time env +:+ Js.nl +:+
  "Command: " +:+ dockerCommand entryName +:+ Js.nl +:+
  "Entry: " +:+ entryName +:+ Js.nl +:+
  "Temp Dir: " +:+ uniqueTempDir +:+ Js.nl +:+
  Js.nl +:+
  "=== STDOUT ===" +:+ Js.nl +:+
  Js.or_else (stdout r) "(no stdout)" +:+ Js.nl +:+
  Js.nl +:+
  "=== STDERR ===" +:+ Js.nl +:+
  Js.or_else (stderr r) "(no stderr)" +:+ Js.nl +:+
  Js.nl +:+
  "=== ERROR ===" +:+ Js.nl +:+
  default "(no error)" (error r) +:+ Js.nl +:+
  Js.nl +:+
  "=== END LOG ===" +:+ Js.nl +:+
  Js.nl.

(** The [try] block around the log: the [tmp] directory is created when
    it is missing, then the record is appended. *)
Definition write_log (entryName : string) (r : ExecResult) : M unit :=
  λ w,
    (do! (if Fs.existsSync tmpDir w then ret ()
          else Fs.mkdirSync (mkdir_fault env tmpDir) tmpDir) in
     Fs.appendFileSync (append_fault env) (logContent entryName r)) w.

(** [try { ... } catch (e) { console.error(...) }]: the exception is
    reported on the console only, the world stays as the block left it. *)
Definition swallow (m : M unit) : World → World := λ w, (m w).2.

(** The removal of the temporary directory, written twice in the source
    (the [cleanup] closure of the callback and the [catch] block). *)
Definition cleanup : World → World :=
  λ w,
    if Js.truthy uniqueTempDir && Fs.existsSync uniqueTempDir w
    then swallow (Fs.rmSync (rm_fault env uniqueTempDir) uniqueTempDir) w
    else w.

Definition output (r : ExecResult) : string :=
  stdout r +:+ (if Js.truthy (stderr r) then Js.nl +:+ stderr r else "").

(** The callback of [exec]: log, clean up, send the output. *)
Definition on_exit (entryName : string) (r : ExecResult) (w : World)
    : World * Response :=
  let w1 := swallow (write_log entryName r) w in
  let w2 := cleanup w1 in
  (w2, {| statusCode := 200; body := Text (output r) |}).

(** The [catch] block of the handler. *)
Definition on_throw (msg : string) (w : World) : World * Response :=
  (cleanup w, {| statusCode := 500; body := Text ("Server error: " +:+ msg) |}).

(** [!contractCode || !testCode || !entryName]. *)
Definition missing_fields (req : Request) : bool :=
  negb (Js.truthy_field (contractCode req))
  || negb (Js.truthy_field (testCode req))
  || negb (Js.truthy_field (entryName req)).

Definition bad_request : Response :=
  {| statusCode := 400; body := Json [("error", "Missing required fields")] |}.

(** The world when the callback of [exec(command, ...)] is invoked: the
    command has gone through the shell. *)
Definition spawned (command : string) (w : World) : World :=
  set_files (sh env command (files w)) w.

(** The handler after validation, on the three strings of the request.
    When the process never exits the callback is never invoked, and the
    world is the one the handler left when it called [exec]. *)
Definition run (contractCode testCode entryName : string) (w : World)
    : World * Outcome :=
  match stage contractCode testCode entryName w with
  | (Ok command, w1) =>
      match docker env with
      | Exits r =>
          let (w2, resp) := on_exit entryName r (spawned command w1) in
          (w2, Responded resp)
      | RunsForever => (w1, NoResponse)
      end
  | (Throw msg, w1) =>
      let (w2, resp) := on_throw msg w1 in (w2, Responded resp)
  end.

Definition handle (req : Request) (w : World) : World * Outcome :=
  if missing_fields req then (w, Responded bad_request)
  else run (default "" (contractCode req)) (default "" (testCode req))
           (default "" (entryName req)) w.

End Handler.

(** ** A server directory, a clock reading and a few docker runs *)

Module Demo.

Definition script_dir : string := "/srv/backend".

(** The disk before the request: the server directory exists, [tmp]
    does not yet. *)
Definition disk : World :=
  {| dirs := {["/"; "/srv"; "/srv/backend"]}; files := ∅; log := [] |}.

(** An environment in which no file system call fails. *)
Definition calm (now : N) (digits : list nat) (p : Process) : Env :=
  {| dirname := script_dir; dirname_absolute := eq_refl;
     date_now := now; random_digits := digits;
     iso_time := "2025-01-01T00:00:00.000Z";
     mkdir_fault := λ _, None; write_fault := λ _, None;
     append_fault := None; rm_fault := λ _, None;
     docker := p; sh := λ _ f, f |}.

(** The tests ran and printed on both streams. *)
Definition passed : Process :=
  Exits {| error := None; stdout := "ok"; stderr := "warning" |}.

(** The docker process could not do its work. *)
Definition broken : Process :=
  Exits {| error := Some "Command failed: docker run"; stdout := ""; stderr := "" |}.

(** The clock reads 1730000000000 and [Math.random()] returns 0.5, in base
    36 the single digit [i]; one millisecond later it returns 0.75, the
    digit [r]. *)
Definition env_ok : Env := calm 1730000000000 [18] passed.
Definition env_broken : Env := calm 1730000000000 [18] broken.
Definition env_hung : Env := calm 1730000000000 [18] RunsForever.
Definition env_later : Env := calm 1730000000001 [27] passed.

(** An environment in which the temporary directory cannot be created. *)
Definition env_read_only : Env :=
  {| dirname := script_dir; dirname_absolute := eq_refl;
     date_now := 17; random_digits := [10; 11];
     iso_time := "2025-01-01T00:00:00.000Z";
     mkdir_fault := λ _, Some "EACCES: permission denied, mkdir";
     write_fault := λ _, None;
     append_fault := None; rm_fault := λ _, None;
     docker := passed; sh := λ _ f, f |}.

Definition demo : Request := request "x = 1" "assert x == 1" "demo".

Definition nameless : Request :=
  {| contractCode := Some "x = 1";
     testCode := Some "assert x == 1";
     entryName := None |}.

(** The world once [demo] is staged under [env_ok]. *)
Definition staged : World :=
  (stage env_ok "x = 1" "assert x == 1" "demo" disk).2.

(** Two requests under the same climbing entry name, the second staged
    while the first is still running. *)
Definition climbing : string := "../1730000000000_i/x".
Definition first_staged : World :=
  (stage env_ok "a = 1" "assert a" climbing disk).2.
Definition second_staged : World :=
  (stage env_later "b = 2" "assert b" climbing first_staged).2.

End Demo.

(** ** The caller: the editor page *)

(** Strings are sequences of 8-bit characters; letter case is modelled on
    ASCII text, which is what [is_ascii] delimits. *)
Module Text.

Fixpoint map_chars (f : ascii → ascii) (s : string) : string :=
  match s with
  | "" => ""
  | String c r => String (f c) (map_chars f r)
  end.

Fixpoint all_chars (f : ascii → bool) (s : string) : bool :=
  match s with
  | "" => true
  | String c r => f c && all_chars f r
  end.

Definition is_ascii (s : string) : bool :=
  all_chars (λ c, nat_of_ascii c <? 128) s.

Definition is_upper (c : ascii) : bool :=
  (65 <=? nat_of_ascii c) && (nat_of_ascii c <=? 90).

Definition lower_char (c : ascii) : ascii :=
  if is_upper c then ascii_of_nat (nat_of_ascii c + 32) else c.

(** [s.toLowerCase()]. *)
Definition toLowerCase (s : string) : string := map_chars lower_char s.

(** [s.replace(/c/g, d)] for single characters [c] and [d]. *)
Definition replace_all (c d : ascii) (s : string) : string :=
  map_chars (λ a, if Ascii.eqb a c then d else a) s.

(** Lower case, then underscore for dash: what [normalizeEntryName] makes
    of one character. *)
Definition normal_char (c : ascii) : ascii :=
  if Ascii.eqb (lower_char c) "-" then "_"%char else lower_char c.

(** The characters that [JSON.stringify] writes for one character of a
    string: the quote and the backslash are escaped, the control characters
    are written by their short escape or as [\u00XX]. *)
Definition hex_digit (n : nat) : ascii :=
  nth n (list_ascii_of_string "0123456789abcdef") "0"%char.

Definition json_char (c : ascii) : string :=
  let n := nat_of_ascii c in
  if n =? 34 then String "\"%char Js.quote
  else if n =? 92 then "\\"
  else if n =? 8 then "\b"
  else if n =? 9 then "\t"
  else if n =? 10 then "\n"
  else if n =? 12 then "\f"
  else if n =? 13 then "\r"
  else if n <? 32 then
    "\u00" +:+ String (hex_digit (n / 16)) (String (hex_digit (n mod 16)) "")
  else String c "".

Fixpoint json_chars (s : string) : string :=
  match s with
  | "" => ""
  | String c r => json_char c +:+ json_chars r
  end.

Definition json_string (s : string) : string :=
  Js.quote +:+ json_chars s +:+ Js.quote.

Fixpoint json_members (o : list (string * string)) : string :=
  match o with
  | [] => ""
  | (k, v) :: r =>
      json_string k +:+ ":" +:+ json_string v +:+
      match r with
      | [] => ""
      | _ :: _ => "," +:+ json_members r
      end
  end.

(** [JSON.stringify] of an object whose members are strings. *)
Definition stringify (o : list (string * string)) : string :=
  "{" +:+ json_members o +:+ "}".

End Text.

(** [response.text()]: the text of the body as it travels. *)
Definition response_text (r : Response) : string :=
  match body r with
  | Text s => s
  | Json o => Text.stringify o
  end.

(** The state of the [AppContent] component of [frontend/src/App.tsx] and
    its event handlers, each as the state it leaves. *)
Module App.

Record Entry := {
  id : string;
  name : string;
  contractCode : string;
  testCode : string
}.

Inductive Tab := contract | tests.

Record State := {
  entries : list Entry;
  selectedEntry : option string;          (* string | null *)
  activeTab : Tab;
  terminalOutput : string;
  isRunning : bool;
  deletingEntryId : option string;
  terminalCollapsed : bool
}.

Definition set_entries (l : list Entry) (s : State) : State :=
  {| entries := l; selectedEntry := selectedEntry s; activeTab := activeTab s;
     terminalOutput := terminalOutput s; isRunning := isRunning s;
     deletingEntryId := deletingEntryId s;
     terminalCollapsed := terminalCollapsed s |}.
Definition set_selectedEntry (x : option string) (s : State) : State :=
  {| entries := entries s; selectedEntry := x; activeTab := activeTab s;
     terminalOutput := terminalOutput s; isRunning := isRunning s;
     deletingEntryId := deletingEntryId s;
     terminalCollapsed := terminalCollapsed s |}.
Definition set_terminalOutput (x : string) (s : State) : State :=
  {| entries := entries s; selectedEntry := selectedEntry s;
     activeTab := activeTab s;
     terminalOutput := x; isRunning := isRunning s;
     deletingEntryId := deletingEntryId s;
     terminalCollapsed := terminalCollapsed s |}.
Definition set_isRunning (x : bool) (s : State) : State :=
  {| entries := entries s; selectedEntry := selectedEntry s;
     activeTab := activeTab s;
     terminalOutput := terminalOutput s; isRunning := x;
     deletingEntryId := deletingEntryId s;
     terminalCollapsed := terminalCollapsed s |}.
Definition set_deletingEntryId (x : option string) (s : State) : State :=
  {| entries := entries s; selectedEntry := selectedEntry s;
     activeTab := activeTab s;
     terminalOutput := terminalOutput s; isRunning := isRunning s;
     deletingEntryId := x;
     terminalCollapsed := terminalCollapsed s |}.
Definition set_terminalCollapsed (x : bool) (s : State) : State :=
  {| entries := entries s; selectedEntry := selectedEntry s;
     activeTab := activeTab s;
     terminalOutput := terminalOutput s; isRunning := isRunning s;
     deletingEntryId := deletingEntryId s;
     terminalCollapsed := x |}.

(** The state of the first render. *)
Definition initial : State :=
  {| entries := []; selectedEntry := None; activeTab := contract;
     terminalOutput := ""; isRunning := false;
     deletingEntryId := None; terminalCollapsed := false |}.

(** [createEntry], with the value [Date.now()] returns. *)
Definition createEntry (now : N) (s : State) : State :=
  let newEntry :=
    {| id := Js.of_number now;
       name := "entry" +:+ Js.of_number (N.of_nat (length (entries s) + 1));
       contractCode := "# Contract code here" +:+ Js.nl;
       testCode := "# Test code here" +:+ Js.nl |} in
  set_selectedEntry (Some (id newEntry))
    (set_entries (entries s ++ [newEntry]) s).

Definition startDeleteEntry (entryId : string) (s : State) : State :=
  set_deletingEntryId (Some entryId) s.

Definition cancelDeleteEntry (s : State) : State :=
  set_deletingEntryId None s.

Definition confirmDeleteEntry (entryId : string) (s : State) : State :=
  let updatedEntries := filter (λ entry, id entry ≠ entryId) (entries s) in
  let s1 := set_entries updatedEntries s in
  let s2 :=
    if bool_decide (selectedEntry s = Some entryId)
    then set_selectedEntry
           (match updatedEntries with
            | first :: _ => Some (id first)
            | [] => None
            end) s1
    else s1 in
  set_deletingEntryId None s2.

Definition with_name (newName : string) (entry : Entry) : Entry :=
  {| id := id entry; name := newName;
     contractCode := contractCode entry; testCode := testCode entry |}.

Definition with_code (tab : Tab) (code : string) (entry : Entry) : Entry :=
  match tab with
  | contract =>
      {| id := id entry; name := name entry;
         contractCode := code; testCode := testCode entry |}
  | tests =>
      {| id := id entry; name := name entry;
         contractCode := contractCode entry; testCode := code |}
  end.

Definition renameEntry (entryId newName : string) (s : State) : State :=
  set_entries
    (map (λ entry, if bool_decide (id entry = entryId)
                   then with_name newName entry else entry)
         (entries s)) s.

Definition updateCode (code : string) (s : State) : State :=
  match selectedEntry s with
  | Some selected =>
      if Js.truthy selected then
        set_entries
          (map (λ entry, if bool_decide (id entry = selected)
                         then with_code (activeTab s) code entry else entry)
               (entries s)) s
      else s
  | None => s
  end.

(** [entries.find(e => e.id === selectedEntry)]. *)
Definition selectedEntryData (s : State) : option Entry :=
  match selectedEntry s with
  | Some selected => find (λ e, bool_decide (id e = selected)) (entries s)
  | None => None
  end.

Definition currentCode (s : State) : string :=
  match selectedEntryData s with
  | Some e =>
      match activeTab s with
      | contract => contractCode e
      | tests => testCode e
      end
  | None => ""
  end.

Definition normalizeEntryName (name : string) : string :=
  Text.replace_all "-" "_" (Text.toLowerCase name).

(** What [fetch] and [response.text()] come to: the text of the response,
    a rejection with its error, or no answer yet. *)
Inductive Fetched :=
| Resolved (result : string)
| Rejected (error : string)
| Pending.

(** The body that [runCode] posts for an entry. *)
Definition posted (entry : Entry) : Request :=
  request (contractCode entry) (testCode entry) (normalizeEntryName (name entry)).

(** [runCode], given what the network answers to the posted request. *)
Definition runCode (fetch : Request → Fetched) (s : State) : State :=
  if Js.truthy_field (selectedEntry s) then
    match selectedEntryData s with
    | None => s
    | Some entry =>
        let s1 := if terminalCollapsed s then set_terminalCollapsed false s else s in
        let s2 := set_terminalOutput ("Running..." +:+ Js.nl) (set_isRunning true s1) in
        match fetch (posted entry) with
        | Resolved result => set_isRunning false (set_terminalOutput result s2)
        | Rejected error =>
            set_isRunning false (set_terminalOutput ("Error: " +:+ error) s2)
        | Pending => s2
        end
    end
  else s.

(** [localStorage] as far as the page uses it.  The item
    [codeEditorEntries] is kept as what [JSON.parse] makes of it, in the
    three cases that the page itself can bring about: nothing to parse (the
    item is missing or empty), a text that does not parse, or the array of
    entries that the save effect wrote with [JSON.stringify].  A text that
    parses to anything else ([null], a number, an object, an array of
    other things) is not covered: the load effect passes such a value to
    [setEntries] unchecked, and the state is then no list of entries. *)
Inductive StoredEntries :=
| NoEntries
| Unparsable
| Parsed (l : list Entry).

Record Storage := {
  codeEditorEntries : StoredEntries;
  codeEditorSelectedEntry : option string;
  codeEditorActiveTab : option string
}.

Definition tab_text (t : Tab) : string :=
  match t with
  | contract => "contract"
  | tests => "tests"
  end.

(** The effect that runs on mount.  An exception of [JSON.parse] leaves
    the [try] block before anything is set. *)
Definition load (st : Storage) (s : State) : State :=
  let restore_tab (s1 : State) : State :=
    match codeEditorActiveTab st with
    | Some saved =>
        if bool_decide (saved = "contract") then
          {| entries := entries s1; selectedEntry := selectedEntry s1;
             activeTab := contract;
             terminalOutput := terminalOutput s1; isRunning := isRunning s1;
             deletingEntryId := deletingEntryId s1;
             terminalCollapsed := terminalCollapsed s1 |}
        else if bool_decide (saved = "tests") then
          {| entries := entries s1; selectedEntry := selectedEntry s1;
             activeTab := tests;
             terminalOutput := terminalOutput s1; isRunning := isRunning s1;
             deletingEntryId := deletingEntryId s1;
             terminalCollapsed := terminalCollapsed s1 |}
        else s1
    | None => s1
    end in
  match codeEditorEntries st with
  | Unparsable => s
  | NoEntries => restore_tab s
  | Parsed parsedEntries =>
      let s1 := set_entries parsedEntries s in
      restore_tab
        match parsedEntries with
        | first :: _ =>
            let kept :=
              match codeEditorSelectedEntry st with
              | Some saved =>
                  Js.truthy saved
                  && bool_decide
                       (is_Some (find (λ e, bool_decide (id e = saved)) parsedEntries))
              | None => false
              end in
            set_selectedEntry
              (if kept then codeEditorSelectedEntry st else Some (id first)) s1
        | [] => s1
        end
  end.

(** The three save effects, as they run after a change once the page is
    initialized: the entries and the tab are always written, the selection
    only when there is one. *)
Definition save (s : State) (st : Storage) : Storage :=
  {| codeEditorEntries := Parsed (entries s);
     codeEditorSelectedEntry :=
       if Js.truthy_field (selectedEntry s) then selectedEntry s
       else codeEditorSelectedEntry st;
     codeEditorActiveTab := Some (tab_text (activeTab s)) |}.

(** The selection names an entry of the list, and there is a selection as
    soon as there is an entry. *)
Definition selection_valid (s : State) : Prop :=
  match entries s with
  | [] => selectedEntry s = None
  | _ :: _ => ∃ x, selectedEntry s = Some x ∧ x ∈ map id (entries s)
  end.

End App.

(** The network between the page and the server of this file: the request
    reaches [handle], and the response, if any, comes back as text. *)
Definition served (env : Env) (w : World) (req : Request) : App.Fetched :=
  match (handle env req w).2 with
  | Responded r => App.Resolved (response_text r)
  | NoResponse => App.Pending
  end.

(** ** The earlier handler of [POST /run] *)

(** The handler as it stood before the test image was mounted: the files
    are named after the entry with its dashes replaced, a fixed image is
    run, and a docker error is answered with status 500. It has no log. *)
Module Earlier.

Section Handler.

Variable env : Env.

Definition sanitizedEntryName (entryName : string) : string :=
  Text.replace_all "-" "_" entryName.

Definition contractFile (entryName : string) : string :=
  Path.join [uniqueTempDir env; sanitizedEntryName entryName +:+ "_contract.py"].

Definition testFile (entryName : string) : string :=
  Path.join [uniqueTempDir env; sanitizedEntryName entryName +:+ "_tests.py"].

Definition dockerCommand : string := "docker run --rm hello-world".

Definition stage (contractCode testCode entryName : string) : M unit :=
  do! Fs.mkdirSync (mkdir_fault env (uniqueTempDir env)) (uniqueTempDir env) in
  do! Fs.writeFileSync (write_fault env (contractFile entryName))
        (contractFile entryName) contractCode in
  Fs.writeFileSync (write_fault env (testFile entryName))
    (testFile entryName) testCode.

Definition output (entryName : string) (r : ExecResult) : string :=
  "Entry: " +:+ entryName +:+ Js.nl +:+
  "Files created:" +:+ Js.nl +:+
  "- " +:+ sanitizedEntryName entryName +:+ "_contract.py" +:+ Js.nl +:+
  "- " +:+ sanitizedEntryName entryName +:+ "_tests.py" +:+ Js.nl +:+
  Js.nl +:+
  "Docker Output:" +:+ Js.nl +:+
  stdout r +:+ Js.nl +:+
  Js.nl +:+
  (if Js.truthy (stderr r) then "Docker Stderr:" +:+ Js.nl +:+ stderr r else "").

(** The callback of [exec]: an error ends the request with status 500,
    after the cleanup. *)
Definition on_exit (entryName : string) (r : ExecResult) (w : World)
    : World * Response :=
  match error r with
  | Some message =>
      (cleanup env w,
       {| statusCode := 500;
          body := Text ("Docker execution error: " +:+ message) |})
  | None =>
      (cleanup env w, {| statusCode := 200; body := Text (output entryName r) |})
  end.

Definition run (contractCode testCode entryName : string) (w : World)
    : World * Outcome :=
  match stage contractCode testCode entryName w with
  | (Ok _, w1) =>
      match docker env with
      | Exits r =>
          let (w2, resp) := on_exit entryName r (spawned env dockerCommand w1) in
          (w2, Responded resp)
      | RunsForever => (w1, NoResponse)
      end
  | (Throw msg, w1) =>
      let (w2, resp) := on_throw env msg w1 in (w2, Responded resp)
  end.

Definition handle (req : Request) (w : World) : World * Outcome :=
  if missing_fields req then (w, Responded bad_request)
  else run (default "" (contractCode req))
           (default "" (testCode req))
           (default "" (entryName req)) w.

End Handler.

End Earlier.

(** Staging on the three properties of a validated request. *)
Definition staging (env : Env) (req : Request) : M string :=
  stage env (default "" (contractCode req)) (default "" (testCode req))
    (default "" (entryName req)).

(** ** More environments and an editor session *)

Module Scene.

(** The log cannot be appended to and the workspace cannot be removed. *)
Definition env_flaky : Env :=
  {| dirname := Demo.script_dir; dirname_absolute := eq_refl;
     date_now := 1730000000000; random_digits := [18];
     iso_time := "2024-10-27T03:33:22.000Z";
     mkdir_fault := λ _, None; write_fault := λ _, None;
     append_fault := Some "ENOSPC: no space left on device, write";
     rm_fault := λ _, Some "EBUSY: resource busy or locked, rmdir";
     docker := Demo.passed; sh := λ _ f, f |}.

(** The disk fills up between the two staged files. *)
Definition env_full : Env :=
  {| dirname := Demo.script_dir; dirname_absolute := eq_refl;
     date_now := 1730000000000; random_digits := [18];
     iso_time := "2024-10-27T03:33:21.000Z";
     mkdir_fault := λ _, None;
     write_fault := λ p,
       if bool_decide (p = "/srv/backend/tmp/1730000000000_i/test.py")
       then Some "ENOSPC: no space left on device, write" else None;
     append_fault := None; rm_fault := λ _, None;
     docker := Demo.passed; sh := λ _ f, f |}.

(** A shell whose working directory is the server directory: it runs the
    command substitution that the entry name [$(touch pwned)] puts into
    the command of [exec] before it starts docker. *)
Definition substitution : string := "$(touch pwned)".

Definition env_injected : Env :=
  {| dirname := Demo.script_dir; dirname_absolute := eq_refl;
     date_now := 1730000000000; random_digits := [18];
     iso_time := "2024-10-27T03:33:23.000Z";
     mkdir_fault := λ _, None; write_fault := λ _, None;
     append_fault := None; rm_fault := λ _, None;
     docker := Demo.passed;
     sh := λ command f,
       if String.index 0 substitution command is Some _
       then <["/srv/backend/pwned" := ""]> f else f |}.

(** A disk on which an earlier run left the same workspace behind. *)
Definition littered : World :=
  {| dirs := {["/"; "/srv"; "/srv/backend"; "/srv/backend/tmp";
               "/srv/backend/tmp/1730000000000_i"]};
     files := {["/srv/backend/tmp/1730000000000_i/old.py" := "stale"]};
     log := ["earlier record"] |}.

(** Two entries made one after the other, the second renamed and edited. *)
Definition two_entries : App.State :=
  App.updateCode "x = 1"
    (App.renameEntry "1730000000001" "My-Token"
       (App.createEntry 1730000000001
          (App.createEntry 1730000000000 App.initial))).

End Scene.

(** ** The model at work *)

Example join_demo :
  Path.join ["/srv/backend"; "tmp"; "1730000000000_i"] = "/srv/backend/tmp/1730000000000_i".
Proof. reflexivity. Qed.

Example join_climbs :
  Path.join ["/srv/backend/tmp/1730000000000_i"; "../../etc.py"] = "/srv/backend/etc.py".
Proof. reflexivity. Qed.

Example join_relative : Path.join ["a/../../b/"; ""; "./c"] = "../b/c".
Proof. reflexivity. Qed.

Example ancestors_demo :
  Path.ancestors "/srv/tmp/x" = ["/"; "/srv"; "/srv/tmp"; "/srv/tmp/x"].
Proof. reflexivity. Qed.

Example of_number_demo : Js.of_number 1730000000000 = "1730000000000".
Proof. reflexivity. Qed.

Example demo_workspace : uniqueTempDir Demo.env_ok = "/srv/backend/tmp/1730000000000_i".
Proof. reflexivity. Qed.

(** The demo request: both files are staged in the workspace, the response
    is the output of docker, and the workspace is gone afterwards. *)
Example demo_staged :
  files Demo.staged !! "/srv/backend/tmp/1730000000000_i/demo.py" = Some "x = 1"
  ∧ files Demo.staged !! "/srv/backend/tmp/1730000000000_i/test.py" = Some "assert x == 1".
Proof. by vm_compute. Qed.

Example demo_answered :
  (handle Demo.env_ok Demo.demo Demo.disk).2
  = Responded {| statusCode := 200; body := Text ("ok" +:+ Js.nl +:+ "warning") |}
  ∧ files (handle Demo.env_ok Demo.demo Demo.disk).1 = ∅
  ∧ Fs.existsSync "/srv/backend/tmp/1730000000000_i"
      (handle Demo.env_ok Demo.demo Demo.disk).1 = false
  ∧ Fs.existsSync "/srv/backend/tmp" (handle Demo.env_ok Demo.demo Demo.disk).1 = true.
Proof. by vm_compute. Qed.

(** A name with a separator that does not climb: the directory that would
    hold the contract file is missing, and the request fails in staging. *)
Example nested_name_fails :
  (handle Demo.env_ok (request "x = 1" "assert x == 1" "a/b") Demo.disk).2
  = Responded
      {| statusCode := 500;
         body := Text ("Server error: ENOENT: no such file or directory, open "
                       +:+ "'/srv/backend/tmp/1730000000000_i/a/b.py'") |}.
Proof. by vm_compute. Qed.

(** * Facts about strings and paths *)

Section StringFacts.

Lemma has_char_app c a b :
  Js.has_char c (a +:+ b) = Js.has_char c a || Js.has_char c b.
Proof.
  induction a as [|x a IH]; simpl; [done|].
  by rewrite IH, orb_assoc.
Qed.

Lemma append_assoc a b c : (a +:+ b) +:+ c = a +:+ (b +:+ c).
Proof.
  induction a as [|x a IH]; [done|].
  change (String x ((a +:+ b) +:+ c) = String x (a +:+ b +:+ c)).
  by rewrite IH.
Qed.

Lemma includes_here sub post : Js.includes (sub +:+ post) sub.
Proof. by exists "", post. Qed.

Lemma includes_append_r a s sub : Js.includes s sub → Js.includes (a +:+ s) sub.
Proof.
  intros (pre & post & ->). exists (a +:+ pre), post.
  by rewrite append_assoc.
Qed.

Lemma has_char_truthy c s : Js.has_char c s = true → Js.truthy s = true.
Proof. by destruct s. Qed.

Lemma truthy_app_l a b : Js.truthy a = true → Js.truthy (a +:+ b) = true.
Proof. by destruct a. Qed.

Lemma truthy_app_r a b : Js.truthy b = true → Js.truthy (a +:+ b) = true.
Proof. by destruct a, b. Qed.

(** A character that is not a decimal digit does not occur in the
    rendering of a number. *)
Lemma of_number_has_char c n :
  forallb (λ a, negb (Ascii.eqb a c)) (list_ascii_of_string "0123456789") = true →
  Js.has_char c (Js.of_number n) = false.
Proof.
  intros H. simpl in H. repeat (apply andb_prop in H as [?%negb_true_iff H]).
  unfold Js.of_number. induction (N.to_uint n); simpl; rewrite ?IHu; auto;
    by rewrite ?orb_false_r.
Qed.

Lemma of_number_inj n m : Js.of_number n = Js.of_number m → n = m.
Proof.
  unfold Js.of_number. intros H.
  apply DecimalN.Unsigned.to_uint_inj.
  assert (Some (N.to_uint n) = Some (N.to_uint m)) as [= ->]; [|done].
  by rewrite <- !NilEmpty.usu, H.
Qed.

(** Neither [/] nor [_] is a base-36 digit. *)
Lemma digit36_neq c d :
  forallb (λ a, negb (Ascii.eqb a c)) Js.base36 = true →
  Ascii.eqb (Js.digit36 d) c = false.
Proof.
  intros H. rewrite forallb_forall in H.
  apply negb_true_iff, H. unfold Js.digit36.
  apply nth_In. change (length Js.base36) with 36.
  apply Nat.mod_upper_bound. lia.
Qed.

Lemma of_digits_has_char c l :
  forallb (λ a, negb (Ascii.eqb a c)) Js.base36 = true →
  Js.has_char c (Js.of_chars (map Js.digit36 l)) = false.
Proof.
  intros H. induction l as [|d l IH]; simpl; [done|].
  by rewrite digit36_neq, IH.
Qed.

(** Splitting at the first occurrence of a character is unambiguous. *)
Lemma app_sep_inj c a1 b1 a2 b2 :
  Js.has_char c a1 = false → Js.has_char c a2 = false →
  a1 +:+ String c b1 = a2 +:+ String c b2 → a1 = a2 ∧ b1 = b2.
Proof.
  revert a2. induction a1 as [|x a1 IH]; intros [|y a2]; simpl.
  - by intros _ _ [= ->].
  - intros _ [Hy _]%orb_false_elim [= <- _]. by rewrite Ascii.eqb_refl in Hy.
  - intros [Hx _]%orb_false_elim _ [= -> _]. by rewrite Ascii.eqb_refl in Hx.
  - intros [_ H1]%orb_false_elim [_ H2]%orb_false_elim [= -> H].
    destruct (IH _ H1 H2 H) as [-> ->]. done.
Qed.

Lemma length_append a b :
  String.length (a +:+ b) = String.length a + String.length b.
Proof.
  induction a as [|x a IH]; [done|].
  change (S (String.length (a +:+ b)) = S (String.length a + String.length b)).
  by rewrite IH.
Qed.

Lemma append_inj_r a b c : a +:+ c = b +:+ c → a = b.
Proof.
  revert b. induction a as [|x a IH]; intros [|y b] H; [done| | |].
  - apply (f_equal String.length) in H.
    change ("" +:+ c) with c in H.
    change (String y b +:+ c) with (String y (b +:+ c)) in H.
    cbn [String.length] in H. rewrite length_append in H. lia.
  - apply (f_equal String.length) in H.
    change ("" +:+ c) with c in H.
    change (String x a +:+ c) with (String x (a +:+ c)) in H.
    cbn [String.length] in H. rewrite length_append in H. lia.
  - change (String x (a +:+ c) = String y (b +:+ c)) in H.
    injection H as -> H. by rewrite (IH _ H).
Qed.

End StringFacts.

Section PathFacts.

Import Path.

Abbreviation plains := (Forall (λ s, plain s = true)).

Lemma plain_truthy s : plain s = true → Js.truthy s = true.
Proof. unfold plain. by intros [[[? ?]%andb_prop ?]%andb_prop ?]%andb_prop. Qed.

Lemma plain_no_slash s : plain s = true → has_slash s = false.
Proof.
  unfold plain.
  by intros [[[? ?%negb_true_iff]%andb_prop ?]%andb_prop ?]%andb_prop.
Qed.

(** A slash-free string that contains a character other than the dot is a
    plain segment. *)
Lemma plain_intro c s :
  Js.has_char c s = true → Ascii.eqb "."%char c = false →
  has_slash s = false → plain s = true.
Proof.
  intros Hc Hdot Hs. unfold plain.
  rewrite (has_char_truthy _ _ Hc), Hs. simpl.
  apply andb_true_intro; split; apply negb_true_iff, bool_decide_eq_false;
    intros ->; cbn [Js.has_char] in Hc; rewrite Hdot in Hc; done.
Qed.

Lemma split_slash_nonnil s : split_slash s ≠ [].
Proof.
  destruct s as [|c r]; simpl; [done|].
  destruct (is_slash c); [done|]. by destruct (split_slash r).
Qed.

Lemma split_slash_app a b :
  split_slash (a +:+ "/" +:+ b) = split_slash a ++ split_slash b.
Proof.
  induction a as [|c a IH]; simpl; [done|].
  destruct (is_slash c); [by rewrite IH|].
  rewrite IH. pose proof (split_slash_nonnil a).
  by destruct (split_slash a).
Qed.

Lemma split_slash_plain s : has_slash s = false → split_slash s = [s].
Proof.
  unfold has_slash. induction s as [|c s IH]; simpl; [done|].
  intros [Hc Hs]%orb_false_elim. unfold is_slash. rewrite Hc.
  by rewrite (IH Hs).
Qed.

Lemma split_slash_pieces s : Forall (λ x, has_slash x = false) (split_slash s).
Proof.
  unfold has_slash. induction s as [|c s IH]; simpl; [by constructor|].
  destruct (is_slash c) eqn:Hc; [by constructor|].
  pose proof (split_slash_nonnil s).
  destruct (split_slash s) as [|h t]; [done|].
  inversion_clear IH. constructor; [|done].
  simpl. unfold is_slash in Hc. by rewrite Hc.
Qed.

Lemma normalize_step_plain a stack s :
  plain s = true → normalize_step a stack s = s :: stack.
Proof.
  unfold plain, normalize_step.
  intros [[[Ht _]%andb_prop Hd]%andb_prop Hdd]%andb_prop.
  apply negb_true_iff in Hd, Hdd. rewrite Hd, Hdd.
  destruct s; [done|]. by rewrite bool_decide_eq_false_2.
Qed.

Lemma fold_step_plain a segs stack :
  plains segs →
  fold_left (normalize_step a) segs stack = rev segs ++ stack.
Proof.
  intros H. revert stack. induction H as [|s segs Hs _ IH]; intros stack; simpl; [done|].
  rewrite normalize_step_plain, IH by done.
  by rewrite <- app_assoc.
Qed.

(** Without leave to climb above the root, the stack only ever holds
    plain segments. *)
Lemma normalize_step_keeps stack s :
  plains stack → has_slash s = false →
  plains (normalize_step false stack s).
Proof.
  intros Hst Hs. unfold normalize_step.
  destruct (bool_decide (s = "")) eqn:He; simpl; [done|].
  destruct (bool_decide (s = ".")) eqn:Hd; simpl; [done|].
  destruct (bool_decide (s = "..")) eqn:Hdd.
  - destruct Hst as [|top rest]; [done|].
    destruct (bool_decide (top = "..")); [by constructor|done].
  - constructor; [|done]. unfold plain. rewrite Hs, Hd, Hdd.
    apply bool_decide_eq_false in He. by destruct s.
Qed.

Lemma fold_step_keeps segs stack :
  plains stack → Forall (λ x, has_slash x = false) segs →
  plains (fold_left (normalize_step false) segs stack).
Proof.
  intros Hst H. revert stack Hst.
  induction H as [|s segs Hs _ IH]; intros stack Hst; simpl; [done|].
  by apply IH, normalize_step_keeps.
Qed.

Lemma resolve_plain p : plains (resolve p).
Proof.
  unfold resolve, normalizeString.
  apply Forall_rev, fold_step_keeps; [constructor|apply split_slash_pieces].
Qed.

Lemma filter_truthy_plains segs :
  plains segs → filter (λ a, Js.truthy a = true) segs = segs.
Proof.
  induction 1 as [|x r Hx _ IH]; [done|].
  rewrite filter_cons_True by by apply plain_truthy. by rewrite IH.
Qed.

Lemma join_slash_cons x r :
  r ≠ [] → join_slash (x :: r) = x +:+ "/" +:+ join_slash r.
Proof. by destruct r. Qed.

Lemma join_slash_truthy segs :
  plains segs → segs ≠ [] → Js.truthy (join_slash segs) = true.
Proof.
  intros [|x r Hx _] ?; [done|].
  destruct r; simpl; [by apply plain_truthy|].
  by apply truthy_app_l, plain_truthy.
Qed.

Lemma split_join segs :
  plains segs → segs ≠ [] → split_slash (join_slash segs) = segs.
Proof.
  induction 1 as [|x r Hx Hr IH]; [done|]. intros _.
  destruct r as [|y r]; [by apply split_slash_plain, plain_no_slash|].
  rewrite join_slash_cons, split_slash_app, IH by done.
  by rewrite split_slash_plain by by apply plain_no_slash.
Qed.

Lemma ends_with_slash_cons c s :
  Js.truthy s = true → ends_with_slash (String c s) = ends_with_slash s.
Proof. by destruct s. Qed.

Lemma ends_with_slash_app a b :
  Js.truthy b = true → ends_with_slash (a +:+ b) = ends_with_slash b.
Proof.
  intros Hb. induction a as [|c a IH]; [done|].
  change (String c a +:+ b) with (String c (a +:+ b)).
  by rewrite ends_with_slash_cons, IH by by apply truthy_app_r.
Qed.

Lemma ends_with_slash_plain s : has_slash s = false → ends_with_slash s = false.
Proof.
  unfold has_slash. induction s as [|c s IH]; [done|].
  cbn [Js.has_char]. intros [Hc Hs]%orb_false_elim.
  destruct s as [|c' s]; [done|].
  rewrite ends_with_slash_cons by done. by apply IH.
Qed.

Lemma ends_with_slash_join segs :
  plains segs → segs ≠ [] → ends_with_slash (join_slash segs) = false.
Proof.
  induction 1 as [|x r Hx Hr IH]; [done|]. intros _.
  destruct r as [|y r]; [by apply ends_with_slash_plain, plain_no_slash|].
  rewrite join_slash_cons by done.
  rewrite ends_with_slash_app by by apply truthy_app_r, join_slash_truthy.
  rewrite ends_with_slash_app by by apply join_slash_truthy.
  by apply IH.
Qed.

Lemma fold_step_join a segs stack :
  plains segs →
  fold_left (normalize_step a) (split_slash (join_slash segs)) stack
  = rev segs ++ stack.
Proof.
  intros H. destruct segs as [|x r]; [done|].
  by rewrite split_join, fold_step_plain.
Qed.

(** [path.join] of an absolute path with plain segments appends them to
    the components of the path. *)
Lemma join_absolute d ys :
  starts_with_slash d = true → plains ys → ys ≠ [] →
  Path.join (d :: ys) = render (resolve d ++ ys).
Proof.
  intros Hd Hys Hne.
  assert (Js.truthy d = true) as Ht by by destruct d.
  unfold Path.join.
  rewrite filter_cons_True, filter_truthy_plains by done.
  rewrite join_slash_cons by done.
  unfold normalize.
  rewrite truthy_app_l by done.
  replace (starts_with_slash (d +:+ "/" +:+ join_slash ys)) with true
    by by destruct d.
  rewrite ends_with_slash_app by by apply truthy_app_r, join_slash_truthy.
  rewrite ends_with_slash_app by by apply join_slash_truthy.
  rewrite ends_with_slash_join by done.
  unfold normalizeString. simpl negb.
  rewrite split_slash_app, fold_left_app, fold_step_join by done.
  rewrite rev_app_distr, rev_involutive.
  fold (normalizeString (split_slash d) false). fold (resolve d).
  rewrite join_slash_truthy; [done| |].
  - apply Forall_app; split; [apply resolve_plain|done].
  - by destruct (resolve d), ys.
Qed.

Lemma resolve_render segs : plains segs → resolve (render segs) = segs.
Proof.
  intros H. unfold resolve, render, normalizeString.
  change ("/" +:+ join_slash segs) with ("" +:+ "/" +:+ join_slash segs).
  rewrite split_slash_app, fold_left_app. simpl fold_left at 2.
  change (normalize_step false [] "") with (@nil string).
  rewrite fold_step_join by done.
  by rewrite app_nil_r, rev_involutive.
Qed.

Lemma segments_render segs : plains segs → segments (render segs) = segs.
Proof.
  intros H. unfold segments, render.
  change ("/" +:+ join_slash segs) with ("" +:+ "/" +:+ join_slash segs).
  rewrite split_slash_app. simpl app.
  rewrite filter_cons_False by done.
  destruct segs as [|x r]; [done|].
  by rewrite split_join, filter_truthy_plains.
Qed.

Lemma join_render segs ys :
  plains segs → plains ys → ys ≠ [] →
  Path.join (render segs :: ys) = render (segs ++ ys).
Proof.
  intros Hs Hys Hne. rewrite join_absolute by done.
  by rewrite resolve_render.
Qed.

Lemma inside_render segs segs' :
  plains segs → plains segs' →
  inside (render segs) (render segs') = bool_decide (segs `prefix_of` segs').
Proof. intros H H'. unfold inside. by rewrite !segments_render. Qed.

Lemma parent_render segs y :
  plains segs → plain y = true → parent (render (segs ++ [y])) = render segs.
Proof.
  intros H Hy. unfold parent.
  rewrite segments_render; [by rewrite removelast_last|].
  apply Forall_app; split; [done|by constructor].
Qed.

Lemma ancestors_self segs : plains segs → render segs ∈ ancestors (render segs).
Proof.
  intros H. unfold ancestors. rewrite segments_render by done.
  apply list_elem_of_In, in_map_iff. exists (length segs). split.
  - by rewrite firstn_all.
  - apply in_seq. lia.
Qed.

Lemma ancestors_prefix segs k :
  plains segs → render (take k segs) ∈ ancestors (render segs).
Proof.
  intros H. unfold ancestors. rewrite segments_render by done.
  apply list_elem_of_In, in_map_iff.
  exists (min k (length segs)). split.
  - f_equal. destruct (Nat.le_ge_cases k (length segs)).
    + by rewrite Nat.min_l.
    + rewrite Nat.min_r, firstn_all by done. by rewrite take_ge.
  - apply in_seq. lia.
Qed.

Lemma join_slash_snoc segs y :
  segs ≠ [] → join_slash (segs ++ [y]) = join_slash segs +:+ "/" +:+ y.
Proof.
  induction segs as [|x r IH]; [done|]. intros _.
  destruct r as [|x' r]; [done|].
  change ((x :: x' :: r) ++ [y]) with (x :: ((x' :: r) ++ [y])).
  rewrite (join_slash_cons x ((x' :: r) ++ [y])) by done.
  rewrite IH by done. rewrite (join_slash_cons x (x' :: r)) by done.
  by rewrite !append_assoc.
Qed.

Lemma render_snoc segs y :
  segs ≠ [] → render (segs ++ [y]) = render segs +:+ "/" +:+ y.
Proof.
  intros H. unfold render. rewrite join_slash_snoc by done.
  by rewrite append_assoc.
Qed.

End PathFacts.

(** * Facts about the handler *)

Section HandlerFacts.

Import Path.

Variable env : Env.

Abbreviation plains := (Forall (λ s, plain s = true)).
Abbreviation base := (resolve (dirname env)).

Lemma workspaceName_plain : plain (workspaceName env) = true.
Proof.
  unfold workspaceName, randomId. apply (plain_intro "_"%char).
  - rewrite !has_char_app. simpl. by rewrite orb_true_r.
  - done.
  - unfold has_slash.
    by rewrite !has_char_app, of_number_has_char, of_digits_has_char.
Qed.

Lemma entry_file_plain en : has_slash en = false → plain (en +:+ ".py") = true.
Proof.
  intros H. apply (plain_intro "y"%char).
  - rewrite has_char_app. simpl. by rewrite orb_true_r.
  - done.
  - unfold has_slash in *. by rewrite has_char_app, H.
Qed.

Lemma base_plains l : plains l → plains (base ++ l).
Proof. intros. apply Forall_app; split; [apply resolve_plain|done]. Qed.

Lemma tmpDir_render : tmpDir env = render (base ++ ["tmp"]).
Proof.
  unfold tmpDir. apply join_absolute; [apply dirname_absolute| |done].
  by repeat constructor.
Qed.

Lemma uniqueTempDir_render :
  uniqueTempDir env = render (base ++ ["tmp"; workspaceName env]).
Proof.
  unfold uniqueTempDir. apply join_absolute; [apply dirname_absolute| |done].
  repeat constructor. apply workspaceName_plain.
Qed.

Lemma workspace_plains : plains (base ++ ["tmp"; workspaceName env]).
Proof. apply base_plains. repeat constructor. apply workspaceName_plain. Qed.

Lemma contractFile_render en :
  has_slash en = false →
  contractFile env en
  = render ((base ++ ["tmp"; workspaceName env]) ++ [en +:+ ".py"]).
Proof.
  intros H. unfold contractFile. rewrite uniqueTempDir_render.
  apply join_render; [apply workspace_plains| |done].
  repeat constructor. by apply entry_file_plain.
Qed.

Lemma testFile_render :
  testFile env = render ((base ++ ["tmp"; workspaceName env]) ++ ["test.py"]).
Proof.
  unfold testFile. rewrite uniqueTempDir_render.
  apply join_render; [apply workspace_plains| |done].
  by repeat constructor.
Qed.

Lemma uniqueTempDir_truthy : Js.truthy (uniqueTempDir env) = true.
Proof. by rewrite uniqueTempDir_render. Qed.

Lemma inside_refl p : inside p p = true.
Proof. unfold inside. by apply bool_decide_eq_true. Qed.

(** The workspace lies below [tmp]: what is outside [tmp] is outside the
    workspace. *)
Lemma outside_tmp_outside_workspace p :
  inside (tmpDir env) p = false → inside (uniqueTempDir env) p = false.
Proof.
  unfold inside. rewrite tmpDir_render, uniqueTempDir_render.
  rewrite !segments_render
    by (apply workspace_plains || (apply base_plains; by repeat constructor)).
  intros H%bool_decide_eq_false. apply bool_decide_eq_false.
  intros Hp. apply H. etrans; [|exact Hp].
  exists [workspaceName env]. by rewrite <- app_assoc.
Qed.

(** The two staged files as strings. *)
Lemma contractFile_string en :
  has_slash en = false →
  contractFile env en = uniqueTempDir env +:+ "/" +:+ en +:+ ".py".
Proof.
  intros H. rewrite contractFile_render, uniqueTempDir_render by done.
  apply render_snoc. by destruct base.
Qed.

Lemma testFile_string : testFile env = uniqueTempDir env +:+ "/test.py".
Proof.
  rewrite testFile_render, uniqueTempDir_render.
  apply (render_snoc _ "test.py"). by destruct base.
Qed.

Lemma contractFile_neq_testFile en :
  has_slash en = false → en ≠ "test" → contractFile env en ≠ testFile env.
Proof.
  intros H Hne. rewrite contractFile_string, testFile_string by done.
  intros Heq%(inj (String.append _)).
  change ("/test.py") with ("/" +:+ "test" +:+ ".py") in Heq.
  apply (inj (String.append _)) in Heq. by apply append_inj_r in Heq.
Qed.

(** Both staged files lie in the workspace, hence below [tmp]. *)
Lemma inside_workspace_snoc y :
  plain y = true →
  inside (uniqueTempDir env)
    (render ((base ++ ["tmp"; workspaceName env]) ++ [y])) = true.
Proof.
  intros Hy. rewrite uniqueTempDir_render, inside_render.
  - apply bool_decide_eq_true. by eexists.
  - apply workspace_plains.
  - apply Forall_app; split; [apply workspace_plains|by constructor].
Qed.

Lemma inside_tmp_snoc y :
  plain y = true →
  inside (tmpDir env)
    (render ((base ++ ["tmp"; workspaceName env]) ++ [y])) = true.
Proof.
  intros Hy. rewrite tmpDir_render, inside_render.
  - apply bool_decide_eq_true.
    exists [workspaceName env; y]. by rewrite <- !app_assoc.
  - apply base_plains. by repeat constructor.
  - apply Forall_app; split; [apply workspace_plains|by constructor].
Qed.

(** *** Staging *)

Ltac unfold_stage :=
  unfold stage, bind, Fs.mkdirSync, Fs.writeFileSync, ret, throw.

Lemma stage_log cc tc en w : log (stage env cc tc en w).2 = log w.
Proof.
  unfold_stage.
  repeat case_match; simplify_eq/=; done.
Qed.

Lemma stage_files cc tc en w p :
  p ≠ contractFile env en → p ≠ testFile env →
  files (stage env cc tc en w).2 !! p = files w !! p.
Proof.
  intros Hc Ht.
  unfold_stage.
  repeat case_match; simplify_eq/=; by rewrite ?lookup_insert_ne.
Qed.

(** When staging succeeds, the world is the old one with the directories
    of the workspace added and the two files written, the test file
    last. *)
Lemma stage_ok_world cc tc en w cmd w1 :
  stage env cc tc en w = (Ok cmd, w1) →
  cmd = dockerCommand env en
  ∧ dirs w1 = dirs w ∪ list_to_set (ancestors (uniqueTempDir env))
  ∧ files w1 = <[testFile env := tc]> (<[contractFile env en := cc]> (files w))
  ∧ log w1 = log w.
Proof.
  unfold_stage.
  intros H. repeat case_match; simplify_eq. done.
Qed.

Lemma stage_ok_tmp_exists cc tc en w cmd w1 :
  stage env cc tc en w = (Ok cmd, w1) → Fs.existsSync (tmpDir env) w1 = true.
Proof.
  intros (_ & Hd & _)%stage_ok_world. unfold Fs.existsSync.
  apply orb_true_intro; left. apply bool_decide_eq_true. rewrite Hd.
  apply elem_of_union_r, elem_of_list_to_set.
  rewrite tmpDir_render, uniqueTempDir_render.
  replace (base ++ ["tmp"])
    with (take (S (length base)) (base ++ ["tmp"; workspaceName env])).
  - apply ancestors_prefix, workspace_plains.
  - rewrite take_app_ge by lia.
    by replace (S (length base) - length base) with 1 by lia.
Qed.

Lemma stage_ok_workspace_exists cc tc en w cmd w1 :
  stage env cc tc en w = (Ok cmd, w1) →
  Fs.existsSync (uniqueTempDir env) w1 = true.
Proof.
  intros (_ & Hd & _)%stage_ok_world. unfold Fs.existsSync.
  apply orb_true_intro; left. apply bool_decide_eq_true. rewrite Hd.
  apply elem_of_union_r, elem_of_list_to_set.
  rewrite uniqueTempDir_render. apply ancestors_self, workspace_plains.
Qed.

(** *** The process *)

Lemma spawned_dirs c w : dirs (spawned env c w) = dirs w.
Proof. done. Qed.

Lemma spawned_log c w : log (spawned env c w) = log w.
Proof. done. Qed.

Lemma spawned_files c w : files (spawned env c w) = sh env c (files w).
Proof. done. Qed.

Lemma exists_dir_spawned p c w :
  p ∈ dirs w → Fs.existsSync p (spawned env c w) = true.
Proof.
  intros Hp. unfold Fs.existsSync. rewrite spawned_dirs.
  apply orb_true_intro; left. by apply bool_decide_eq_true.
Qed.

Lemma stage_ok_tmp_spawned cc tc en w cmd w1 c :
  stage env cc tc en w = (Ok cmd, w1) →
  Fs.existsSync (tmpDir env) (spawned env c w1) = true.
Proof.
  intros (_ & Hd & _)%stage_ok_world. apply exists_dir_spawned. rewrite Hd.
  apply elem_of_union_r, elem_of_list_to_set.
  rewrite tmpDir_render, uniqueTempDir_render.
  replace (base ++ ["tmp"])
    with (take (S (length base)) (base ++ ["tmp"; workspaceName env])).
  - apply ancestors_prefix, workspace_plains.
  - rewrite take_app_ge by lia.
    by replace (S (length base) - length base) with 1 by lia.
Qed.

(** Staging succeeds for an entry name without separator when the
    environment lets the three calls through. *)
Lemma stage_succeeds cc tc en w :
  has_slash en = false →
  mkdir_fault env (uniqueTempDir env) = None →
  write_fault env (contractFile env en) = None →
  write_fault env (testFile env) = None →
  ∃ w1, stage env cc tc en w = (Ok (dockerCommand env en), w1).
Proof.
  intros Hen Hm Hc Ht.
  assert (∀ d : gset string,
    uniqueTempDir env ∈ d ∪ list_to_set (ancestors (uniqueTempDir env))) as Hin.
  { intros d. apply elem_of_union_r, elem_of_list_to_set.
    rewrite uniqueTempDir_render. apply ancestors_self, workspace_plains. }
  assert (parent (contractFile env en) = uniqueTempDir env) as Hpc.
  { rewrite contractFile_render, uniqueTempDir_render by done.
    apply parent_render; [apply workspace_plains|by apply entry_file_plain]. }
  assert (parent (testFile env) = uniqueTempDir env) as Hpt.
  { rewrite testFile_render, uniqueTempDir_render.
    by apply parent_render; [apply workspace_plains|]. }
  unfold_stage.
  rewrite Hm, Hc, Ht, Hpc, Hpt. simpl.
  rewrite !bool_decide_eq_true_2 by apply Hin. eauto.
Qed.

(** *** Logging and cleanup *)

Lemma write_log_files en r w : files (swallow (write_log env en r) w) = files w.
Proof.
  unfold swallow, write_log, bind, Fs.mkdirSync, Fs.appendFileSync, ret, throw.
  repeat case_match; simplify_eq/=; done.
Qed.

Lemma write_log_appends en r w :
  Fs.existsSync (tmpDir env) w = true → append_fault env = None →
  log (swallow (write_log env en r) w) = log w ++ [logContent env en r].
Proof.
  intros He Ha.
  unfold swallow, write_log, bind, Fs.appendFileSync, ret, throw.
  by rewrite He, Ha.
Qed.

Lemma cleanup_log w : log (cleanup env w) = log w.
Proof.
  unfold cleanup, swallow, Fs.rmSync, throw. repeat case_match; simplify_eq/=; done.
Qed.

Lemma cleanup_removes w :
  rm_fault env (uniqueTempDir env) = None →
  Fs.existsSync (uniqueTempDir env) (cleanup env w) = false.
Proof.
  intros Hrm. unfold cleanup. rewrite uniqueTempDir_truthy. simpl.
  destruct (Fs.existsSync (uniqueTempDir env) w) eqn:He; [|done].
  unfold swallow, Fs.rmSync, Fs.existsSync, throw. rewrite Hrm. simpl.
  apply orb_false_intro; apply bool_decide_eq_false.
  - intros [H _]%elem_of_filter. by rewrite inside_refl in H.
  - intros [x [_ H]%map_lookup_filter_Some].
    change (inside (uniqueTempDir env) (uniqueTempDir env) = false) in H.
    by rewrite inside_refl in H.
Qed.

Lemma cleanup_files_outside w p :
  inside (uniqueTempDir env) p = false →
  files (cleanup env w) !! p = files w !! p.
Proof.
  intros Hp. unfold cleanup, swallow, Fs.rmSync, throw.
  repeat case_match; simplify_eq/=; try done.
  rewrite map_lookup_filter. destruct (files w !! p); simpl; [|done].
  by rewrite option_guard_True.
Qed.

End HandlerFacts.

(** * The claims of the specification *)

Section Claims.

Variable env : Env.

Lemma missing_fields_iff req :
  missing_fields req = true ↔
  absent_or_empty (contractCode req) ∨ absent_or_empty (testCode req)
  ∨ absent_or_empty (entryName req).
Proof.
  unfold missing_fields, absent_or_empty.
  destruct req as [[[|??]|] [[|??]|] [[|??]|]]; simpl; intuition congruence.
Qed.

Lemma handle_valid cc tc en w :
  missing_fields (request cc tc en) = false →
  handle env (request cc tc en) w = run env cc tc en w.
Proof. unfold handle. by intros ->. Qed.

End Claims.

(** C6: a request that misses one of the three required fields (the
    property is absent or holds the empty string) is answered with status
    400, and the world is left exactly as it was: no directory is created,
    no file written, no log record appended. *)
Theorem missing_field_rejected_before_any_effect env req w :
  absent_or_empty (contractCode req) ∨ absent_or_empty (testCode req)
  ∨ absent_or_empty (entryName req) →
  ∃ resp, handle env req w = (w, Responded resp) ∧ statusCode resp = 400%N.
Proof.
  intros H%missing_fields_iff. unfold handle. rewrite H.
  by exists bad_request.
Qed.

(** C10: whichever of the three fields is absent or empty, the body of the
    400 response is the same JSON object with the single member
    [error: 'Missing required fields']; it never names the field. *)
Theorem missing_field_body_is_fixed env req w :
  absent_or_empty (contractCode req) ∨ absent_or_empty (testCode req)
  ∨ absent_or_empty (entryName req) →
  (handle env req w).2
  = Responded {| statusCode := 400;
                 body := Json [("error", "Missing required fields")] |}.
Proof.
  intros H%missing_fields_iff. unfold handle. by rewrite H.
Qed.

(** C3, as stated, fails: the cleanup swallows the exception of
    [rmSync]. When the removal of the temporary directory throws, the
    request is answered all the same, with status 200 and the output, and
    the directory stays on disk with the two staged files in it. *)
Lemma failed_removal_leaves_the_workspace :
  missing_fields Demo.demo = false
  ∧ rm_fault Scene.env_flaky (uniqueTempDir Scene.env_flaky)
    = Some "EBUSY: resource busy or locked, rmdir"
  ∧ (handle Scene.env_flaky Demo.demo Demo.disk).2
    = Responded {| statusCode := 200; body := Text ("ok" +:+ Js.nl +:+ "warning") |}
  ∧ uniqueTempDir Scene.env_flaky = "/srv/backend/tmp/1730000000000_i"
  ∧ Fs.existsSync (uniqueTempDir Scene.env_flaky)
      (handle Scene.env_flaky Demo.demo Demo.disk).1 = true
  ∧ files (handle Scene.env_flaky Demo.demo Demo.disk).1
      !! "/srv/backend/tmp/1730000000000_i/demo.py" = Some "x = 1"
  ∧ files (handle Scene.env_flaky Demo.demo Demo.disk).1
      !! "/srv/backend/tmp/1730000000000_i/test.py" = Some "assert x == 1".
Proof. by vm_compute. Qed.

(** C3, amended: for every request that passes validation and is
    answered, on the path where docker ran (whether it succeeded or
    reported an error) and on the path where an exception was caught, the
    temporary directory of the request does not exist once the response is
    sent, provided [rmSync] does not throw. *)
Theorem workspace_removed_on_every_path env cc tc en w resp :
  missing_fields (request cc tc en) = false →
  (handle env (request cc tc en) w).2 = Responded resp →
  rm_fault env (uniqueTempDir env) = None →
  Fs.existsSync (uniqueTempDir env) (handle env (request cc tc en) w).1 = false.
Proof.
  intros Hv. rewrite handle_valid by done. unfold run.
  destruct (stage env cc tc en w) as [[cmd|msg] w1].
  - destruct (docker env) as [r|]; [|done].
    intros _ Hrm. by apply cleanup_removes.
  - intros _ Hrm. by apply cleanup_removes.
Qed.

(** C6 at a request without entry name. *)
Lemma missing_field_rejected_before_any_effect_witness :
  (absent_or_empty (contractCode Demo.nameless)
   ∨ absent_or_empty (testCode Demo.nameless)
   ∨ absent_or_empty (entryName Demo.nameless))
  ∧ ∃ resp, handle Demo.env_ok Demo.nameless Demo.disk = (Demo.disk, Responded resp)
            ∧ statusCode resp = 400%N.
Proof.
  assert (absent_or_empty (contractCode Demo.nameless)
          ∨ absent_or_empty (testCode Demo.nameless)
          ∨ absent_or_empty (entryName Demo.nameless)) as H
    by (right; right; left; reflexivity).
  split; [exact H|].
  exact (missing_field_rejected_before_any_effect Demo.env_ok Demo.nameless Demo.disk H).
Defined.

(** C10 at a request whose contract code is the empty string. *)
Lemma missing_field_body_is_fixed_witness :
  (absent_or_empty (contractCode (request "" "assert x == 1" "demo"))
   ∨ absent_or_empty (testCode (request "" "assert x == 1" "demo"))
   ∨ absent_or_empty (entryName (request "" "assert x == 1" "demo")))
  ∧ (handle Demo.env_ok (request "" "assert x == 1" "demo") Demo.disk).2
    = Responded {| statusCode := 400;
                   body := Json [("error", "Missing required fields")] |}.
Proof.
  assert (absent_or_empty (contractCode (request "" "assert x == 1" "demo"))
          ∨ absent_or_empty (testCode (request "" "assert x == 1" "demo"))
          ∨ absent_or_empty (entryName (request "" "assert x == 1" "demo"))) as H
    by (left; right; reflexivity).
  split; [exact H|].
  exact (missing_field_body_is_fixed Demo.env_ok _ Demo.disk H).
Defined.

(** C3 amended, at the demo request, with a docker process that reports
    an error. *)
Lemma workspace_removed_on_every_path_witness :
  missing_fields (request "x = 1" "assert x == 1" "demo") = false
  ∧ (handle Demo.env_broken (request "x = 1" "assert x == 1" "demo") Demo.disk).2
    = Responded {| statusCode := 200; body := Text "" |}
  ∧ rm_fault Demo.env_broken (uniqueTempDir Demo.env_broken) = None
  ∧ Fs.existsSync (uniqueTempDir Demo.env_broken)
      (handle Demo.env_broken (request "x = 1" "assert x == 1" "demo") Demo.disk).1
    = false.
Proof.
  split_and!; [reflexivity|by vm_compute|reflexivity|].
  apply (workspace_removed_on_every_path Demo.env_broken "x = 1" "assert x == 1" "demo"
           Demo.disk {| statusCode := 200; body := Text "" |});
    [reflexivity|by vm_compute|reflexivity].
Defined.

(** C4, as stated, fails: with output on both streams the body is not the
    plain concatenation, a line feed separates the two. *)
Lemma stderr_starts_on_a_new_line :
  (handle Demo.env_ok Demo.demo Demo.disk).2
  = Responded {| statusCode := 200; body := Text ("ok" +:+ Js.nl +:+ "warning") |}
  ∧ "ok" +:+ Js.nl +:+ "warning" ≠ "ok" +:+ "warning".
Proof. split; [by vm_compute|done]. Qed.

(** C4, amended: whenever staging succeeds and the docker process exits, the
    response has status 200 and its body is the captured stdout followed,
    only when stderr is non-empty, by a line feed and the captured stderr.
    The captured text is not looked at beyond that emptiness test; with an
    empty stderr the body is the concatenation of the two streams. *)
Theorem body_is_stdout_then_stderr env cc tc en w cmd w1 r :
  missing_fields (request cc tc en) = false →
  stage env cc tc en w = (Ok cmd, w1) →
  docker env = Exits r →
  (handle env (request cc tc en) w).2
  = Responded {| statusCode := 200;
                 body := Text (stdout r +:+
                               (if Js.truthy (stderr r) then Js.nl +:+ stderr r else "")) |}
  ∧ (stderr r = "" →
     (handle env (request cc tc en) w).2
     = Responded {| statusCode := 200; body := Text (stdout r +:+ stderr r) |}).
Proof.
  intros Hv Hs Hd. rewrite handle_valid by done. unfold run.
  rewrite Hs, Hd. simpl. split; [done|]. unfold output. by intros ->.
Qed.

(** C4 amended, at the demo request. *)
Lemma body_is_stdout_then_stderr_witness :
  missing_fields (request "x = 1" "assert x == 1" "demo") = false
  ∧ stage Demo.env_ok "x = 1" "assert x == 1" "demo" Demo.disk
    = (Ok (dockerCommand Demo.env_ok "demo"), Demo.staged)
  ∧ docker Demo.env_ok = Exits {| error := None; stdout := "ok"; stderr := "warning" |}
  ∧ (handle Demo.env_ok (request "x = 1" "assert x == 1" "demo") Demo.disk).2
    = Responded {| statusCode := 200; body := Text ("ok" +:+ Js.nl +:+ "warning") |}.
Proof.
  split_and!; [reflexivity|by vm_compute|reflexivity|].
  apply (body_is_stdout_then_stderr Demo.env_ok "x = 1" "assert x == 1" "demo"
           Demo.disk (dockerCommand Demo.env_ok "demo") Demo.staged
           {| error := None; stdout := "ok"; stderr := "warning" |});
    [reflexivity|by vm_compute|reflexivity].
Defined.

(** C2, as stated, fails: a docker process that errors is answered with
    status 200 and the captured output, here the empty text; the failure
    description is not in the body. *)
Lemma docker_error_answered_with_200 :
  docker Demo.env_broken
  = Exits {| error := Some "Command failed: docker run"; stdout := ""; stderr := "" |}
  ∧ (handle Demo.env_broken Demo.demo Demo.disk).2
    = Responded {| statusCode := 200; body := Text "" |}.
Proof. by vm_compute. Qed.

(** C2, amended: when the docker process itself errors, the response still
    has status 200 and carries the captured output; the error message goes
    to the log record only. The temporary directory is removed (unless
    [rmSync] throws), and the log record is appended when [appendFileSync]
    lets it through and dropped otherwise, without changing the response. *)
Theorem docker_error_is_logged_not_reported env cc tc en w cmd w1 r msg :
  missing_fields (request cc tc en) = false →
  stage env cc tc en w = (Ok cmd, w1) →
  docker env = Exits r →
  error r = Some msg →
  (handle env (request cc tc en) w).2
  = Responded {| statusCode := 200; body := Text (output r) |}
  ∧ (rm_fault env (uniqueTempDir env) = None →
     Fs.existsSync (uniqueTempDir env) (handle env (request cc tc en) w).1 = false)
  ∧ (append_fault env = None →
     log (handle env (request cc tc en) w).1 = log w ++ [logContent env en r]
     ∧ Js.includes (logContent env en r) msg)
  ∧ (is_Some (append_fault env) →
     log (handle env (request cc tc en) w).1 = log w).
Proof.
  intros Hv Hs Hd He. rewrite handle_valid by done. unfold run.
  rewrite Hs, Hd. simpl. split_and!.
  - done.
  - apply cleanup_removes.
  - intros Ha. rewrite cleanup_log. split.
    + rewrite write_log_appends; [|by eapply stage_ok_tmp_spawned|done].
      rewrite spawned_log.
      by apply stage_ok_world in Hs as (_ & _ & _ & ->).
    + unfold logContent. rewrite He. simpl default.
      repeat first [apply includes_here | apply includes_append_r].
  - intros [e Ha]. rewrite cleanup_log.
    unfold swallow, write_log, bind, Fs.appendFileSync, Fs.mkdirSync, ret, throw.
    rewrite Ha. apply stage_ok_world in Hs as (_ & _ & _ & <-).
    by repeat case_match; simplify_eq.
Qed.

(** C2 amended, at the demo request with a docker process that errors. *)
Lemma docker_error_is_logged_not_reported_witness :
  missing_fields (request "x = 1" "assert x == 1" "demo") = false
  ∧ stage Demo.env_broken "x = 1" "assert x == 1" "demo" Demo.disk
    = (Ok (dockerCommand Demo.env_broken "demo"), Demo.staged)
  ∧ docker Demo.env_broken
    = Exits {| error := Some "Command failed: docker run"; stdout := ""; stderr := "" |}
  ∧ (handle Demo.env_broken (request "x = 1" "assert x == 1" "demo") Demo.disk).2
    = Responded {| statusCode := 200; body := Text "" |}.
Proof.
  split_and!; [reflexivity|by vm_compute|reflexivity|].
  apply (docker_error_is_logged_not_reported Demo.env_broken
           "x = 1" "assert x == 1" "demo" Demo.disk
           (dockerCommand Demo.env_broken "demo") Demo.staged
           {| error := Some "Command failed: docker run"; stdout := ""; stderr := "" |}
           "Command failed: docker run");
    [reflexivity|by vm_compute|reflexivity|reflexivity].
Defined.

(** C5, as stated, fails: nothing stops a docker process that never exits.
    The request is never answered, the temporary directory and the staged
    files stay on disk, and nothing is logged. *)
Lemma hung_docker_is_never_stopped :
  docker Demo.env_hung = RunsForever
  ∧ (handle Demo.env_hung Demo.demo Demo.disk).2 = NoResponse
  ∧ Fs.existsSync "/srv/backend/tmp/1730000000000_i"
      (handle Demo.env_hung Demo.demo Demo.disk).1 = true
  ∧ files (handle Demo.env_hung Demo.demo Demo.disk).1
      !! "/srv/backend/tmp/1730000000000_i/demo.py" = Some "x = 1"
  ∧ log (handle Demo.env_hung Demo.demo Demo.disk).1 = [].
Proof. by vm_compute. Qed.

(** C5, amended: [exec] is called without a time bound. When the docker
    process never exits the callback never runs: the handler sends no
    response, the world stays as staging left it, with the temporary
    directory on disk, and no log record is appended. *)
Theorem exec_has_no_time_bound env cc tc en w cmd w1 :
  missing_fields (request cc tc en) = false →
  stage env cc tc en w = (Ok cmd, w1) →
  docker env = RunsForever →
  handle env (request cc tc en) w = (w1, NoResponse)
  ∧ Fs.existsSync (uniqueTempDir env) w1 = true
  ∧ log w1 = log w.
Proof.
  intros Hv Hs Hd. rewrite handle_valid by done. unfold run.
  rewrite Hs, Hd. split_and!.
  - done.
  - by eapply stage_ok_workspace_exists.
  - by apply stage_ok_world in Hs as (_ & _ & _ & ->).
Qed.

(** C5 amended, at the demo request with a docker process that hangs. *)
Lemma exec_has_no_time_bound_witness :
  missing_fields (request "x = 1" "assert x == 1" "demo") = false
  ∧ stage Demo.env_hung "x = 1" "assert x == 1" "demo" Demo.disk
    = (Ok (dockerCommand Demo.env_hung "demo"), Demo.staged)
  ∧ docker Demo.env_hung = RunsForever
  ∧ handle Demo.env_hung (request "x = 1" "assert x == 1" "demo") Demo.disk
    = (Demo.staged, NoResponse).
Proof.
  split_and!; [reflexivity|by vm_compute|reflexivity|].
  apply (exec_has_no_time_bound Demo.env_hung "x = 1" "assert x == 1" "demo"
           Demo.disk (dockerCommand Demo.env_hung "demo") Demo.staged);
    [reflexivity|by vm_compute|reflexivity].
Defined.

(** C7, as stated, fails: when staging fails the request is answered from
    the [catch] block, which appends nothing to the log. *)
Lemma staging_failure_is_not_logged :
  missing_fields Demo.demo = false
  ∧ (handle Demo.env_read_only Demo.demo Demo.disk).2
    = Responded {| statusCode := 500;
                   body := Text "Server error: EACCES: permission denied, mkdir" |}
  ∧ log (handle Demo.env_read_only Demo.demo Demo.disk).1 = log Demo.disk.
Proof. by vm_compute. Qed.

(** C7, amended: for a request that passes validation, the log grows by
    exactly one record when staging succeeds, the docker process exits and
    [appendFileSync] lets the record through, whether or not docker
    reported an error; it does not grow when staging fails. In every case
    at most one record is appended. *)
Theorem one_log_record_per_docker_run env cc tc en w :
  missing_fields (request cc tc en) = false →
  (∀ cmd w1 r,
     stage env cc tc en w = (Ok cmd, w1) → docker env = Exits r →
     append_fault env = None →
     log (handle env (request cc tc en) w).1 = log w ++ [logContent env en r])
  ∧ (∀ msg w1,
       stage env cc tc en w = (Throw msg, w1) →
       log (handle env (request cc tc en) w).1 = log w)
  ∧ (log (handle env (request cc tc en) w).1 = log w
     ∨ ∃ r, log (handle env (request cc tc en) w).1 = log w ++ [logContent env en r]).
Proof.
  intros Hv. rewrite handle_valid by done. unfold run.
  pose proof (stage_log env cc tc en w) as Hl.
  destruct (stage env cc tc en w) as [[cmd|msg] w1] eqn:Hs; simpl in Hl.
  - split_and!.
    + intros ? ? r [= <- <-] -> Ha. simpl. rewrite cleanup_log, <- Hl.
      rewrite <- (spawned_log env cmd w1).
      apply write_log_appends; [by eapply stage_ok_tmp_spawned|done].
    + by intros ? ? [=].
    + destruct (docker env) as [r|]; [|by left]. simpl. rewrite cleanup_log.
      unfold swallow, write_log, bind, Fs.appendFileSync, Fs.mkdirSync, ret, throw.
      rewrite (stage_ok_tmp_spawned _ _ _ _ _ _ _ cmd Hs).
      destruct (append_fault env); simpl; [by left|right].
      exists r. by rewrite Hl.
  - split_and!.
    + by intros ? ? ? [=].
    + intros ? ? _. simpl. by rewrite cleanup_log.
    + left. simpl. by rewrite cleanup_log.
Qed.

(** C7 amended, at the demo request: one record after a docker run. *)
Lemma one_log_record_per_docker_run_witness :
  missing_fields (request "x = 1" "assert x == 1" "demo") = false
  ∧ log (handle Demo.env_ok (request "x = 1" "assert x == 1" "demo") Demo.disk).1
    = log Demo.disk
      ++ [logContent Demo.env_ok "demo"
            {| error := None; stdout := "ok"; stderr := "warning" |}].
Proof.
  split; [reflexivity|].
  apply (proj1 (one_log_record_per_docker_run Demo.env_ok
                  "x = 1" "assert x == 1" "demo" Demo.disk eq_refl)
           (dockerCommand Demo.env_ok "demo") Demo.staged
           {| error := None; stdout := "ok"; stderr := "warning" |});
    [by vm_compute|reflexivity|reflexivity].
Defined.

(** C9, as stated, fails: an entry name that climbs with [..] puts the
    contract file outside the workspace, where the cleanup does not reach
    it. *)
Lemma climbing_name_is_staged_outside_workspace :
  contractFile Demo.env_ok "../leak" = "/srv/backend/tmp/leak.py"
  ∧ files (stage Demo.env_ok "x = 1" "assert x == 1" "../leak" Demo.disk).2
      !! "/srv/backend/tmp/leak.py" = Some "x = 1"
  ∧ Path.inside (uniqueTempDir Demo.env_ok) "/srv/backend/tmp/leak.py" = false
  ∧ files (handle Demo.env_ok (request "x = 1" "assert x == 1" "../leak") Demo.disk).1
      !! "/srv/backend/tmp/leak.py" = Some "x = 1".
Proof. by vm_compute. Qed.

(** C9, amended: the entry name is used as received. For an entry name
    without path separator, other than [test], staging that meets no file
    system fault writes the contract code unchanged to [<entryName>.py] and
    the test code unchanged to [test.py], both directly in the temporary
    directory of the request. *)
Theorem artifacts_staged_verbatim env cc tc en w :
  Path.has_slash en = false →
  en ≠ "test" →
  mkdir_fault env (uniqueTempDir env) = None →
  write_fault env (contractFile env en) = None →
  write_fault env (testFile env) = None →
  ∃ w1,
    stage env cc tc en w = (Ok (dockerCommand env en), w1)
    ∧ contractFile env en = uniqueTempDir env +:+ "/" +:+ en +:+ ".py"
    ∧ testFile env = uniqueTempDir env +:+ "/test.py"
    ∧ files w1 !! contractFile env en = Some cc
    ∧ files w1 !! testFile env = Some tc.
Proof.
  intros Hen Hne Hm Hc Ht.
  destruct (stage_succeeds env cc tc en w Hen Hm Hc Ht) as [w1 Hs].
  exists w1. split_and!; [done|by apply contractFile_string|apply testFile_string| |].
  - apply stage_ok_world in Hs as (_ & _ & -> & _).
    rewrite lookup_insert_ne by by apply not_eq_sym, contractFile_neq_testFile.
    apply lookup_insert_eq.
  - apply stage_ok_world in Hs as (_ & _ & -> & _). apply lookup_insert_eq.
Qed.

(** C9 amended, at the demo request. *)
Lemma artifacts_staged_verbatim_witness :
  Path.has_slash "demo" = false
  ∧ "demo" ≠ "test"
  ∧ mkdir_fault Demo.env_ok (uniqueTempDir Demo.env_ok) = None
  ∧ write_fault Demo.env_ok (contractFile Demo.env_ok "demo") = None
  ∧ write_fault Demo.env_ok (testFile Demo.env_ok) = None
  ∧ ∃ w1,
      stage Demo.env_ok "x = 1" "assert x == 1" "demo" Demo.disk
      = (Ok (dockerCommand Demo.env_ok "demo"), w1)
      ∧ contractFile Demo.env_ok "demo"
        = uniqueTempDir Demo.env_ok +:+ "/" +:+ "demo" +:+ ".py"
      ∧ testFile Demo.env_ok = uniqueTempDir Demo.env_ok +:+ "/test.py"
      ∧ files w1 !! contractFile Demo.env_ok "demo" = Some "x = 1"
      ∧ files w1 !! testFile Demo.env_ok = Some "assert x == 1".
Proof.
  assert ("demo" ≠ "test") as Hne by discriminate.
  split_and!; [reflexivity|exact Hne|reflexivity|reflexivity|reflexivity|].
  exact (artifacts_staged_verbatim Demo.env_ok "x = 1" "assert x == 1" "demo"
           Demo.disk eq_refl Hne eq_refl eq_refl eq_refl).
Defined.

(** C1, as stated, fails: the request with entry name [../../etc] is
    neither rejected nor sanitized. It is answered with status 200, and the
    contract code is written next to the server script, outside [tmp],
    where it stays. *)
Lemma climbing_name_escapes_tmp :
  Path.has_slash "../../etc" = true
  ∧ (handle Demo.env_ok (request "x = 1" "assert x == 1" "../../etc") Demo.disk).2
    = Responded {| statusCode := 200; body := Text ("ok" +:+ Js.nl +:+ "warning") |}
  ∧ contractFile Demo.env_ok "../../etc" = "/srv/backend/etc.py"
  ∧ files Demo.disk !! "/srv/backend/etc.py" = None
  ∧ files (handle Demo.env_ok (request "x = 1" "assert x == 1" "../../etc") Demo.disk).1
      !! "/srv/backend/etc.py" = Some "x = 1"
  ∧ Path.inside (tmpDir Demo.env_ok) "/srv/backend/etc.py" = false.
Proof. by vm_compute. Qed.

(** The entry name reaches the shell as it was received.  The name
    [$(touch pwned)] holds no path separator; in an environment whose
    shell runs the command substitution, the request is answered with the
    test output and a file has appeared next to the server script. *)
Lemma entry_name_is_run_by_the_shell :
  Path.has_slash Scene.substitution = false
  ∧ missing_fields (request "x = 1" "assert x == 1" Scene.substitution) = false
  ∧ (handle Scene.env_injected
       (request "x = 1" "assert x == 1" Scene.substitution) Demo.disk).2
    = Responded {| statusCode := 200; body := Text ("ok" +:+ Js.nl +:+ "warning") |}
  ∧ files Demo.disk !! "/srv/backend/pwned" = None
  ∧ files (handle Scene.env_injected
             (request "x = 1" "assert x == 1" Scene.substitution) Demo.disk).1
      !! "/srv/backend/pwned" = Some ""
  ∧ Path.inside (tmpDir Scene.env_injected) "/srv/backend/pwned" = false.
Proof. by vm_compute. Qed.

(** C1, amended: the handler uses the entry name as received, without
    rejecting or rewriting it, and pastes it between the double quotes of
    the command that [exec] gives to the shell. When the entry name holds
    no path separator, both files that the handler writes lie in the
    temporary directory of the request, and staging creates, changes or
    removes no file outside [tmp]. If moreover the command that the shell
    runs changes no file outside [tmp], then, whatever the outcome, the
    request creates, changes or removes no file outside [tmp]. *)
Theorem separator_free_name_stays_in_tmp env cc tc en w :
  missing_fields (request cc tc en) = false →
  Path.has_slash en = false →
  Path.inside (uniqueTempDir env) (contractFile env en) = true
  ∧ Path.inside (uniqueTempDir env) (testFile env) = true
  ∧ Js.includes (dockerCommand env en)
      (Js.quote +:+ uniqueTempDir env +:+ "/" +:+ en +:+ ".py:")
  ∧ (∀ p, Path.inside (tmpDir env) p = false →
          files (stage env cc tc en w).2 !! p = files w !! p)
  ∧ ((∀ f p, Path.inside (tmpDir env) p = false →
             sh env (dockerCommand env en) f !! p = f !! p) →
     ∀ p, Path.inside (tmpDir env) p = false →
          files (handle env (request cc tc en) w).1 !! p = files w !! p).
Proof.
  intros Hv Hen.
  assert (∀ p, Path.inside (tmpDir env) p = false →
               files (stage env cc tc en w).2 !! p = files w !! p) as Hst.
  { intros p Hp. apply stage_files; intros ->.
    - rewrite contractFile_render, inside_tmp_snoc in Hp; [done| |done].
      by apply entry_file_plain.
    - by rewrite testFile_render, inside_tmp_snoc in Hp. }
  split_and!.
  - rewrite contractFile_render by done.
    by apply inside_workspace_snoc, entry_file_plain.
  - rewrite testFile_render. by apply inside_workspace_snoc.
  - unfold dockerCommand. rewrite contractFile_string by done.
    apply includes_append_r, includes_append_r.
    exists "", (contractMountPath en +:+ Js.quote +:+ " " +:+
                "-v " +:+ Js.quote +:+ testFile env +:+ ":" +:+ testMountPath +:+
                Js.quote +:+ " " +:+ "obiyankenobi/hathor-core-test-image " +:+
                "-v tests/nanocontracts/blueprints/test.py").
    change ("" +:+ ?x) with x. rewrite !append_assoc. reflexivity.
  - exact Hst.
  - intros Hsh p Hp. specialize (Hst p Hp).
    pose proof (outside_tmp_outside_workspace env p Hp) as Hw.
    rewrite handle_valid by done. unfold run.
    destruct (stage env cc tc en w) as [[cmd|msg] w1] eqn:Hs; simpl in Hst.
    + destruct (docker env) as [r|]; [|done]. simpl.
      rewrite cleanup_files_outside, write_log_files, spawned_files by done.
      apply stage_ok_world in Hs as (-> & _). by rewrite Hsh.
    + simpl. by rewrite cleanup_files_outside.
Qed.

(** C1 amended, at the demo request, with a docker run that leaves the
    files as they are. *)
Lemma separator_free_name_stays_in_tmp_witness :
  missing_fields (request "x = 1" "assert x == 1" "demo") = false
  ∧ Path.has_slash "demo" = false
  ∧ Path.inside (uniqueTempDir Demo.env_ok) (contractFile Demo.env_ok "demo") = true
  ∧ Path.inside (uniqueTempDir Demo.env_ok) (testFile Demo.env_ok) = true
  ∧ Js.includes (dockerCommand Demo.env_ok "demo")
      (Js.quote +:+ uniqueTempDir Demo.env_ok +:+ "/" +:+ "demo" +:+ ".py:")
  ∧ ∀ p, Path.inside (tmpDir Demo.env_ok) p = false →
         files (stage Demo.env_ok "x = 1" "assert x == 1" "demo" Demo.disk).2 !! p
         = files Demo.disk !! p
         ∧ files (handle Demo.env_ok (request "x = 1" "assert x == 1" "demo")
                    Demo.disk).1 !! p
           = files Demo.disk !! p.
Proof.
  destruct (separator_free_name_stays_in_tmp Demo.env_ok "x = 1" "assert x == 1"
              "demo" Demo.disk eq_refl eq_refl) as (Hc & Ht & Hq & Hs & Hh).
  split_and!; [reflexivity|reflexivity|exact Hc|exact Ht|exact Hq|].
  intros p Hp. split; [by apply Hs|].
  apply Hh; [|exact Hp]. intros f q _. reflexivity.
Defined.

(** C8, as stated, fails twice over. Two requests that read the same clock
    value and draw the same random number share one temporary directory.
    And two requests with distinct directories and the same climbing entry
    name write to the same file: the contract of the second lands in the
    directory of the first. *)
Lemma concurrent_requests_can_meet :
  uniqueTempDir Demo.env_ok = uniqueTempDir Demo.env_broken
  ∧ uniqueTempDir Demo.env_ok ≠ uniqueTempDir Demo.env_later
  ∧ contractFile Demo.env_later Demo.climbing = "/srv/backend/tmp/1730000000000_i/x.py"
  ∧ Path.inside (uniqueTempDir Demo.env_ok) (contractFile Demo.env_later Demo.climbing)
    = true
  ∧ files Demo.first_staged !! "/srv/backend/tmp/1730000000000_i/x.py" = Some "a = 1"
  ∧ files Demo.second_staged !! "/srv/backend/tmp/1730000000000_i/x.py" = Some "b = 2".
Proof. by vm_compute. Qed.

(** C8, amended: the temporary directory of a request is
    [tmp/<clock>_<random>] below the server directory and does not depend
    on the request. On one server, two requests get the same directory
    exactly when they read the same clock value and draw the same random
    token. When the directories differ and an entry name holds no path
    separator, the two files staged under that name by one request lie
    outside the directory of the other. *)
Theorem workspace_is_clock_and_random e1 e2 :
  dirname e1 = dirname e2 →
  (uniqueTempDir e1 = uniqueTempDir e2
   ↔ date_now e1 = date_now e2 ∧ randomId e1 = randomId e2)
  ∧ (uniqueTempDir e1 ≠ uniqueTempDir e2 →
     ∀ en, Path.has_slash en = false →
       Path.inside (uniqueTempDir e1) (contractFile e2 en) = false
       ∧ Path.inside (uniqueTempDir e1) (testFile e2) = false).
Proof.
  intros Hd.
  assert (workspaceName e1 = workspaceName e2 → uniqueTempDir e1 = uniqueTempDir e2)
    as Hname by (unfold uniqueTempDir; by intros ->; rewrite Hd).
  assert (∀ y, Path.plain y = true → uniqueTempDir e1 ≠ uniqueTempDir e2 →
    Path.inside (uniqueTempDir e1)
      (Path.render ((Path.resolve (dirname e2) ++ ["tmp"; workspaceName e2]) ++ [y]))
    = false) as Hout.
  { intros y Hy Hne. rewrite uniqueTempDir_render, inside_render.
    - apply bool_decide_eq_false. intros [k Hk]. apply Hne, Hname.
      rewrite Hd in Hk. apply app_inj_1 in Hk as [Hk _]; [|by rewrite !length_app].
      by apply app_inv_head in Hk as [= ->].
    - apply workspace_plains.
    - apply Forall_app; split; [apply workspace_plains|by constructor]. }
  split.
  - split.
    + intros H. rewrite !uniqueTempDir_render in H.
      apply (f_equal Path.segments) in H.
      rewrite !segments_render in H by apply workspace_plains.
      rewrite Hd in H. apply app_inv_head in H as [= Hw].
      unfold workspaceName in Hw.
      apply (app_sep_inj "_"%char) in Hw as [Hn Hr];
        [|by apply of_number_has_char..].
      split; [by apply of_number_inj|done].
    + intros [Hn Hr]. apply Hname. unfold workspaceName. by rewrite Hn, Hr.
  - intros Hne en Hen. split.
    + rewrite contractFile_render by done.
      by apply Hout; [apply entry_file_plain|].
    + rewrite testFile_render. by apply Hout.
Qed.

(** C8 amended, at two requests one clock tick apart. *)
Lemma workspace_is_clock_and_random_witness :
  dirname Demo.env_ok = dirname Demo.env_later
  ∧ (uniqueTempDir Demo.env_ok = uniqueTempDir Demo.env_later
     ↔ date_now Demo.env_ok = date_now Demo.env_later
       ∧ randomId Demo.env_ok = randomId Demo.env_later).
Proof.
  split; [reflexivity|].
  apply (workspace_is_clock_and_random Demo.env_ok Demo.env_later eq_refl).
Defined.


(** * Further properties of the handler *)

Section MoreHandlerFacts.

Import Path.

Variable env : Env.

Abbreviation base := (resolve (dirname env)).

Lemma write_log_dirs_grow en r w q :
  q ∈ dirs w → q ∈ dirs (swallow (write_log env en r) w).
Proof.
  intros Hq.
  unfold swallow, write_log, bind, Fs.mkdirSync, Fs.appendFileSync, ret, throw.
  repeat case_match; simplify_eq; cbn [snd dirs set_log set_dirs];
    try done; by apply elem_of_union_l.
Qed.

(** Once [mkdirSync] went through the workspace exists, whatever staging
    does next; when it did not, staging has changed nothing. *)
Lemma stage_created_or_untouched cc tc en w :
  uniqueTempDir env ∈ dirs (stage env cc tc en w).2
  ∨ (stage env cc tc en w).2 = w.
Proof.
  assert (∀ d : gset string,
    uniqueTempDir env ∈ d ∪ list_to_set (ancestors (uniqueTempDir env))) as Hin.
  { intros d. apply elem_of_union_r, elem_of_list_to_set.
    rewrite uniqueTempDir_render. apply ancestors_self, workspace_plains. }
  unfold stage, bind, Fs.mkdirSync, Fs.writeFileSync, ret, throw.
  destruct (mkdir_fault env (uniqueTempDir env)); [by right|left].
  repeat case_match; simplify_eq; cbn [snd dirs set_files set_dirs]; apply Hin.
Qed.

(** When the removal goes through, nothing is left at or below the
    workspace that existed. *)
Lemma cleanup_empties w p :
  rm_fault env (uniqueTempDir env) = None →
  Fs.existsSync (uniqueTempDir env) w = true →
  inside (uniqueTempDir env) p = true →
  Fs.existsSync p (cleanup env w) = false.
Proof.
  intros Hrm He Hp. unfold cleanup. rewrite uniqueTempDir_truthy, He. simpl.
  unfold swallow, Fs.rmSync, Fs.existsSync, throw. rewrite Hrm. simpl.
  apply orb_false_intro; apply bool_decide_eq_false.
  - intros [H _]%elem_of_filter. by rewrite Hp in H.
  - intros [x [_ H]%map_lookup_filter_Some].
    change (inside (uniqueTempDir env) p = false) in H. by rewrite Hp in H.
Qed.

Lemma stage_created cc tc en w :
  mkdir_fault env (uniqueTempDir env) = None →
  uniqueTempDir env ∈ dirs (stage env cc tc en w).2.
Proof.
  intros Hm.
  assert (∀ d : gset string,
    uniqueTempDir env ∈ d ∪ list_to_set (ancestors (uniqueTempDir env))) as Hin.
  { intros d. apply elem_of_union_r, elem_of_list_to_set.
    rewrite uniqueTempDir_render. apply ancestors_self, workspace_plains. }
  unfold stage, bind, Fs.mkdirSync, Fs.writeFileSync, ret, throw. rewrite Hm.
  repeat case_match; simplify_eq; cbn [snd dirs set_files set_dirs]; apply Hin.
Qed.

Lemma exists_dir q w : q ∈ dirs w → Fs.existsSync q w = true.
Proof.
  intros H. unfold Fs.existsSync. by rewrite bool_decide_eq_true_2.
Qed.

Lemma not_exists_no_file p w : Fs.existsSync p w = false → files w !! p = None.
Proof.
  unfold Fs.existsSync. intros [_ H%bool_decide_eq_false]%orb_false_elim.
  by apply eq_None_not_Some.
Qed.

Lemma cleanup_idle w :
  Fs.existsSync (uniqueTempDir env) w = false → cleanup env w = w.
Proof. intros H. unfold cleanup. by rewrite H, andb_false_r. Qed.

(** Staging writes inside the workspace only, when the entry name holds no
    separator. *)
Lemma stage_files_outside cc tc en w p :
  has_slash en = false → inside (uniqueTempDir env) p = false →
  files (stage env cc tc en w).2 !! p = files w !! p.
Proof.
  intros Hen Hp. apply stage_files; intros ->.
  - rewrite contractFile_render, inside_workspace_snoc in Hp; [done| |done].
    by apply entry_file_plain.
  - by rewrite testFile_render, inside_workspace_snoc in Hp.
Qed.

Lemma parent_contractFile en :
  has_slash en = false → parent (contractFile env en) = uniqueTempDir env.
Proof.
  intros H. rewrite contractFile_render, uniqueTempDir_render by done.
  apply parent_render; [apply workspace_plains|by apply entry_file_plain].
Qed.

Lemma parent_testFile : parent (testFile env) = uniqueTempDir env.
Proof.
  rewrite testFile_render, uniqueTempDir_render.
  by apply parent_render; [apply workspace_plains|].
Qed.

(** For an entry name without separator staging fails only by a fault of
    the environment, and reports the first one in the order of the calls. *)
Lemma stage_first_fault cc tc en w :
  has_slash en = false →
  (stage env cc tc en w).1
  = match mkdir_fault env (uniqueTempDir env) with
    | Some e => Throw e
    | None =>
        match write_fault env (contractFile env en) with
        | Some e => Throw e
        | None =>
            match write_fault env (testFile env) with
            | Some e => Throw e
            | None => Ok (dockerCommand env en)
            end
        end
    end.
Proof.
  intros Hen.
  assert (∀ d : gset string,
    uniqueTempDir env ∈ d ∪ list_to_set (ancestors (uniqueTempDir env))) as Hin.
  { intros d. apply elem_of_union_r, elem_of_list_to_set.
    rewrite uniqueTempDir_render. apply ancestors_self, workspace_plains. }
  unfold stage, bind, Fs.mkdirSync, Fs.writeFileSync, ret, throw.
  rewrite parent_contractFile, parent_testFile by done.
  destruct (mkdir_fault env (uniqueTempDir env)); [done|].
  destruct (write_fault env (contractFile env en)); [done|].
  cbn [dirs set_dirs set_files]. rewrite bool_decide_eq_true_2 by apply Hin.
  destruct (write_fault env (testFile env)); [done|].
  cbn [dirs set_dirs set_files]. by rewrite bool_decide_eq_true_2 by apply Hin.
Qed.

End MoreHandlerFacts.

(** X1: the response tells which path the request took. A missing field is
    the only source of the 400 response, an exception while staging the
    only source of a 500 response, whose body is [Server error: ] followed
    by the message of that exception, and a docker process that exited,
    with or without error, the only source of a 200 response.  The handler
    stays silent only while a staged request waits for docker. *)
Theorem response_tells_the_path env req w :
  match (handle env req w).2 with
  | Responded r =>
      (missing_fields req = true ∧ r = bad_request)
      ∨ (missing_fields req = false
         ∧ ∃ msg, (staging env req w).1 = Throw msg
                  ∧ r = {| statusCode := 500;
                           body := Text ("Server error: " +:+ msg) |})
      ∨ (missing_fields req = false
         ∧ ∃ cmd res, (staging env req w).1 = Ok cmd ∧ docker env = Exits res
                      ∧ r = {| statusCode := 200; body := Text (output res) |})
  | NoResponse =>
      missing_fields req = false
      ∧ (∃ cmd, (staging env req w).1 = Ok cmd)
      ∧ docker env = RunsForever
  end.
Proof.
  unfold handle, staging.
  destruct (missing_fields req); [by left|].
  unfold run.
  destruct (stage env _ _ _ w) as [[cmd|msg] w1]; simpl.
  - destruct (docker env) as [res|]; simpl.
    + right; right. split; [done|]. by exists cmd, res.
    + split_and!; [done|by exists cmd|done].
  - right; left. split; [done|]. by exists msg.
Qed.

(** X2: neither a failure to append the log record nor a failure to remove
    the workspace changes what the caller gets. Two runs that agree on the
    server directory, the clock, the random number, the faults of
    [mkdirSync] and [writeFileSync] and the docker process end with the
    same response, whatever [appendFileSync] and [rmSync] do. *)
Theorem response_ignores_log_and_cleanup_faults env env' req w :
  dirname env = dirname env' →
  date_now env = date_now env' →
  random_digits env = random_digits env' →
  mkdir_fault env = mkdir_fault env' →
  write_fault env = write_fault env' →
  docker env = docker env' →
  (handle env req w).2 = (handle env' req w).2.
Proof.
  intros Hd Hn Hr Hm Hw Hp.
  assert (uniqueTempDir env = uniqueTempDir env') as Hu
    by (unfold uniqueTempDir, workspaceName, randomId; by rewrite Hd, Hn, Hr).
  assert (∀ cc tc en, stage env cc tc en w = stage env' cc tc en w) as Hs.
  { intros cc tc en.
    unfold stage, dockerCommand, contractFile, testFile. by rewrite Hu, Hm, Hw. }
  unfold handle. destruct (missing_fields req); [done|].
  unfold run. rewrite Hs, Hp.
  destruct (stage env' _ _ _ w) as [[cmd|msg] w1]; [|done].
  by destruct (docker env').
Qed.

(** X2 at the demo request: the log and the cleanup both fail, the
    response is the one of the run without faults. *)
Lemma response_ignores_log_and_cleanup_faults_witness :
  dirname Demo.env_ok = dirname Scene.env_flaky
  ∧ date_now Demo.env_ok = date_now Scene.env_flaky
  ∧ random_digits Demo.env_ok = random_digits Scene.env_flaky
  ∧ mkdir_fault Demo.env_ok = mkdir_fault Scene.env_flaky
  ∧ write_fault Demo.env_ok = write_fault Scene.env_flaky
  ∧ docker Demo.env_ok = docker Scene.env_flaky
  ∧ (handle Demo.env_ok Demo.demo Demo.disk).2
    = (handle Scene.env_flaky Demo.demo Demo.disk).2.
Proof.
  split_and!;
    [reflexivity|reflexivity|reflexivity|reflexivity|reflexivity|reflexivity|].
  exact (response_ignores_log_and_cleanup_faults Demo.env_ok Scene.env_flaky
           Demo.demo Demo.disk eq_refl eq_refl eq_refl eq_refl eq_refl eq_refl).
Defined.

(** X4: what the handler stages it removes again. For an entry name
    without separator, when nothing exists yet below the workspace of the
    request, [rmSync] goes through and the command that the shell runs
    changes no file outside the workspace, every answered request, staged
    or failed in staging, ends with exactly the files the disk held
    before, the docker output log apart: the two staged files, and
    whatever the process put into the workspace, are gone, and no other
    file has changed. *)
Theorem answered_request_restores_files env cc tc en w r :
  missing_fields (request cc tc en) = false →
  Path.has_slash en = false →
  rm_fault env (uniqueTempDir env) = None →
  (∀ f p, Path.inside (uniqueTempDir env) p = false →
          sh env (dockerCommand env en) f !! p = f !! p) →
  (∀ p, Path.inside (uniqueTempDir env) p = true → files w !! p = None) →
  (handle env (request cc tc en) w).2 = Responded r →
  files (handle env (request cc tc en) w).1 = files w.
Proof.
  intros Hv Hen Hrm Hsh Hfresh. rewrite handle_valid by done. unfold run.
  pose proof (stage_files_outside env cc tc en w) as Hout.
  pose proof (stage_created_or_untouched env cc tc en w) as Hcu.
  assert (∀ w', (∀ p, Path.inside (uniqueTempDir env) p = false →
                      files w' !! p = files w !! p) →
                Fs.existsSync (uniqueTempDir env) w' = true ∨ w' = w →
                files (cleanup env w') = files w) as Hclean.
  { intros w' Hsame Hex. apply map_eq. intros p.
    destruct (Path.inside (uniqueTempDir env) p) eqn:Hp.
    - rewrite (Hfresh p Hp).
      destruct (Fs.existsSync (uniqueTempDir env) w') eqn:He.
      + by apply not_exists_no_file, cleanup_empties.
      + destruct Hex as [?| ->]; [done|].
        rewrite cleanup_idle by done. by apply Hfresh.
    - rewrite cleanup_files_outside by done. by apply Hsame. }
  destruct (stage env cc tc en w) as [[cmd|msg] w1] eqn:Hs; simpl in *.
  - destruct (docker env) as [res|]; [|done]. intros _. simpl.
    apply Hclean.
    + intros p Hp. rewrite write_log_files, spawned_files.
      pose proof Hs as (-> & _)%stage_ok_world.
      rewrite Hsh by done. by apply Hout.
    + left. apply exists_dir, write_log_dirs_grow. rewrite spawned_dirs.
      apply stage_ok_world in Hs as (_ & -> & _).
      apply elem_of_union_r, elem_of_list_to_set.
      rewrite uniqueTempDir_render. apply ancestors_self, workspace_plains.
  - intros _. apply Hclean; [by intros; apply Hout|].
    destruct Hcu as [H| ->]; [left; by apply exists_dir|by right].
Qed.

(** X4 with a disk that fills up after the contract file was written: the
    request is answered from the [catch] block and the disk holds no file
    afterwards, as before. *)
Lemma answered_request_restores_files_witness :
  missing_fields (request "x = 1" "assert x == 1" "demo") = false
  ∧ Path.has_slash "demo" = false
  ∧ rm_fault Scene.env_full (uniqueTempDir Scene.env_full) = None
  ∧ (∀ f p, Path.inside (uniqueTempDir Scene.env_full) p = false →
            sh Scene.env_full (dockerCommand Scene.env_full "demo") f !! p = f !! p)
  ∧ (∀ p, Path.inside (uniqueTempDir Scene.env_full) p = true →
          files Demo.disk !! p = None)
  ∧ (handle Scene.env_full (request "x = 1" "assert x == 1" "demo") Demo.disk).2
    = Responded
        {| statusCode := 500;
           body := Text "Server error: ENOSPC: no space left on device, write" |}
  ∧ files (handle Scene.env_full (request "x = 1" "assert x == 1" "demo") Demo.disk).1
    = files Demo.disk.
Proof.
  assert (∀ p, Path.inside (uniqueTempDir Scene.env_full) p = true →
               files Demo.disk !! p = None) as Hfresh
    by (intros p _; apply lookup_empty).
  assert (∀ (f : gmap string string) p,
            Path.inside (uniqueTempDir Scene.env_full) p = false →
            sh Scene.env_full (dockerCommand Scene.env_full "demo") f !! p = f !! p)
    as Hsh by (intros f p _; reflexivity).
  split_and!; [reflexivity|reflexivity|reflexivity|exact Hsh|exact Hfresh
              |by vm_compute|].
  apply (answered_request_restores_files Scene.env_full
           "x = 1" "assert x == 1" "demo" Demo.disk
           {| statusCode := 500;
              body := Text "Server error: ENOSPC: no space left on device, write" |}
           eq_refl eq_refl eq_refl Hsh Hfresh).
  by vm_compute.
Defined.

(** X5: the cleanup removes the workspace with everything in it, not only
    what the request staged. When [mkdirSync] and [rmSync] go through,
    after the response no file and no directory exists at or below the
    workspace path, including files that were there before the request
    (the directory of an earlier request with the same clock value and
    random token is taken over and then deleted). *)
Theorem workspace_is_emptied env cc tc en w r p :
  missing_fields (request cc tc en) = false →
  mkdir_fault env (uniqueTempDir env) = None →
  rm_fault env (uniqueTempDir env) = None →
  (handle env (request cc tc en) w).2 = Responded r →
  Path.inside (uniqueTempDir env) p = true →
  Fs.existsSync p (handle env (request cc tc en) w).1 = false.
Proof.
  intros Hv Hm Hrm. rewrite handle_valid by done. unfold run.
  pose proof (stage_created env cc tc en w Hm) as Hc.
  destruct (stage env cc tc en w) as [[cmd|msg] w1]; simpl in Hc.
  - destruct (docker env) as [res|]; [|done]. intros _ Hp. simpl.
    apply cleanup_empties; [done| |done].
    by apply exists_dir, write_log_dirs_grow.
  - intros _ Hp. simpl. apply cleanup_empties; [done| |done].
    by apply exists_dir.
Qed.

(** X5 on a disk where the workspace path is already taken: the stale file
    in it is gone after the request. *)
Lemma workspace_is_emptied_witness :
  missing_fields (request "x = 1" "assert x == 1" "demo") = false
  ∧ mkdir_fault Demo.env_ok (uniqueTempDir Demo.env_ok) = None
  ∧ rm_fault Demo.env_ok (uniqueTempDir Demo.env_ok) = None
  ∧ (handle Demo.env_ok (request "x = 1" "assert x == 1" "demo") Scene.littered).2
    = Responded {| statusCode := 200; body := Text ("ok" +:+ Js.nl +:+ "warning") |}
  ∧ Path.inside (uniqueTempDir Demo.env_ok) "/srv/backend/tmp/1730000000000_i/old.py"
    = true
  ∧ files Scene.littered !! "/srv/backend/tmp/1730000000000_i/old.py" = Some "stale"
  ∧ Fs.existsSync "/srv/backend/tmp/1730000000000_i/old.py"
      (handle Demo.env_ok (request "x = 1" "assert x == 1" "demo") Scene.littered).1
    = false.
Proof.
  split_and!; [reflexivity|reflexivity|reflexivity|by vm_compute|by vm_compute
              |by vm_compute|].
  apply (workspace_is_emptied Demo.env_ok "x = 1" "assert x == 1" "demo"
           Scene.littered
           {| statusCode := 200; body := Text ("ok" +:+ Js.nl +:+ "warning") |});
    [reflexivity|reflexivity|reflexivity|by vm_compute|by vm_compute].
Defined.

(** X7: the outcome of a validated request under an entry name without
    separator is settled by the environment alone. If [mkdirSync], the
    write of the contract file or the write of the test file throws, the
    response is 500 with the message of the first of them in that order;
    otherwise it is 200 with the output of docker when docker exits, and
    there is no response while docker runs. *)
Theorem outcome_of_separator_free_request env cc tc en w :
  missing_fields (request cc tc en) = false →
  Path.has_slash en = false →
  (handle env (request cc tc en) w).2
  = match mkdir_fault env (uniqueTempDir env),
          write_fault env (contractFile env en),
          write_fault env (testFile env) with
    | Some e, _, _ | None, Some e, _ | None, None, Some e =>
        Responded {| statusCode := 500; body := Text ("Server error: " +:+ e) |}
    | None, None, None =>
        match docker env with
        | Exits res => Responded {| statusCode := 200; body := Text (output res) |}
        | RunsForever => NoResponse
        end
    end.
Proof.
  intros Hv Hen. rewrite handle_valid by done. unfold run.
  pose proof (stage_first_fault env cc tc en w Hen) as Hf.
  destruct (stage env cc tc en w) as [[cmd|msg] w1]; simpl in Hf.
  - destruct (mkdir_fault env (uniqueTempDir env)); [done|].
    destruct (write_fault env (contractFile env en)); [done|].
    destruct (write_fault env (testFile env)); [done|].
    by destruct (docker env).
  - destruct (mkdir_fault env (uniqueTempDir env)); [by simplify_eq|].
    destruct (write_fault env (contractFile env en)); [by simplify_eq|].
    destruct (write_fault env (testFile env)); [by simplify_eq|done].
Qed.

(** X7 with a disk that fills up after the contract file was written. *)
Lemma outcome_of_separator_free_request_witness :
  missing_fields (request "x = 1" "assert x == 1" "demo") = false
  ∧ Path.has_slash "demo" = false
  ∧ (handle Scene.env_full (request "x = 1" "assert x == 1" "demo") Demo.disk).2
    = Responded
        {| statusCode := 500;
           body := Text "Server error: ENOSPC: no space left on device, write" |}.
Proof.
  split_and!; [reflexivity|reflexivity|].
  exact (outcome_of_separator_free_request Scene.env_full
           "x = 1" "assert x == 1" "demo" Demo.disk eq_refl eq_refl).
Defined.

(** X8: the contract file holds the contract code after staging unless the
    entry is named [test]. For an entry name without separator and an
    environment without faults, the contract file and the test file are
    the same path exactly when the entry name is [test]; the test file,
    written last, always holds the test code, and the contract file holds
    the contract code for every other name and the test code for
    [test]. *)
Theorem contract_is_staged_unless_named_test env cc tc en w :
  Path.has_slash en = false →
  mkdir_fault env (uniqueTempDir env) = None →
  write_fault env (contractFile env en) = None →
  write_fault env (testFile env) = None →
  (contractFile env en = testFile env ↔ en = "test")
  ∧ files (stage env cc tc en w).2 !! testFile env = Some tc
  ∧ files (stage env cc tc en w).2 !! contractFile env en
    = Some (if bool_decide (en = "test") then tc else cc).
Proof.
  intros Hen Hm Hc Ht.
  assert (contractFile env en = testFile env ↔ en = "test") as Hiff.
  { split; [|by intros ->].
    intros Heq. destruct (decide (en = "test")) as [|Hne]; [done|].
    by destruct (contractFile_neq_testFile env en Hen Hne). }
  destruct (stage_succeeds env cc tc en w Hen Hm Hc Ht) as [w1 Hs].
  rewrite Hs. cbn [snd]. apply stage_ok_world in Hs as (_ & _ & -> & _).
  split_and!; [done|apply lookup_insert_eq|].
  case_bool_decide as Hn.
  - apply Hiff in Hn. rewrite Hn. apply lookup_insert_eq.
  - rewrite lookup_insert_ne by (intros Heq; by apply Hn, Hiff).
    apply lookup_insert_eq.
Qed.

(** X8 at the entry named [test]: the contract code is lost in staging. *)
Lemma contract_is_staged_unless_named_test_witness :
  Path.has_slash "test" = false
  ∧ mkdir_fault Demo.env_ok (uniqueTempDir Demo.env_ok) = None
  ∧ write_fault Demo.env_ok (contractFile Demo.env_ok "test") = None
  ∧ write_fault Demo.env_ok (testFile Demo.env_ok) = None
  ∧ files (stage Demo.env_ok "x = 1" "assert x == 1" "test" Demo.disk).2
      !! contractFile Demo.env_ok "test"
    = Some "assert x == 1".
Proof.
  split_and!; [reflexivity|reflexivity|reflexivity|reflexivity|].
  apply (contract_is_staged_unless_named_test Demo.env_ok
           "x = 1" "assert x == 1" "test" Demo.disk eq_refl eq_refl eq_refl eq_refl).
Defined.

Section StagedNames.

Import Path.

Abbreviation plains := (Forall (λ s, plain s = true)).

(** Appending a text without separator to a path extends its last piece. *)
Lemma split_slash_extend a b :
  has_slash b = false →
  ∃ init last, split_slash a = init ++ [last]
               ∧ split_slash (a +:+ b) = init ++ [last +:+ b].
Proof.
  intros Hb. induction a as [|c a (init & last & Ha & Hab)].
  - exists [], "". split; [done|]. by apply split_slash_plain.
  - change (String c a +:+ b) with (String c (a +:+ b)). simpl.
    rewrite Ha, Hab. destruct (is_slash c).
    + by exists ("" :: init), last.
    + destruct init as [|h t]; simpl.
      * by exists [], (String c last).
      * by exists (String c h :: t), last.
Qed.

Lemma last_char_inj a b c d :
  a +:+ String c "" = b +:+ String d "" → c = d.
Proof.
  revert b. induction a as [|x a IH]; intros [|y b] H.
  - by injection H.
  - change (String c "" = String y (b +:+ String d "")) in H.
    injection H as _ H. by destruct b.
  - change (String x (a +:+ String c "") = String d "") in H.
    injection H as _ H. by destruct a.
  - change (String x (a +:+ String c "") = String y (b +:+ String d "")) in H.
    injection H as _ H. by apply (IH b).
Qed.

Lemma fold_step_render segs :
  plains segs →
  fold_left (normalize_step false) (split_slash (render segs)) [] = rev segs.
Proof.
  intros H. unfold render.
  change ("/" +:+ join_slash segs) with ("" +:+ "/" +:+ join_slash segs).
  rewrite split_slash_app, fold_left_app. simpl fold_left at 2.
  change (normalize_step false [] "") with (@nil string).
  rewrite fold_step_join by done. by rewrite app_nil_r.
Qed.

(** Whatever the entry name, [path.join] keeps the [.py] of the contract
    file name: the path is absolute and normalized, and its last component
    is a name that ends in [.py]. *)
Lemma contractFile_shape env en :
  ∃ segs stem,
    contractFile env en = render (segs ++ [stem +:+ ".py"])
    ∧ plains (segs ++ [stem +:+ ".py"]).
Proof.
  destruct (split_slash_extend en ".py" eq_refl) as (init & stem & _ & Hsplit).
  pose proof (split_slash_pieces (en +:+ ".py")) as Hpieces.
  rewrite Hsplit in Hpieces. apply Forall_app in Hpieces as [Hinit Hlast].
  assert (plain (stem +:+ ".py") = true) as Hplain.
  { apply (plain_intro "y"%char).
    - rewrite has_char_app. simpl. by rewrite orb_true_r.
    - done.
    - by inversion Hlast. }
  set (stack := fold_left (normalize_step false) init
                  (rev (resolve (dirname env) ++ ["tmp"; workspaceName env]))).
  assert (plains stack) as Hstack.
  { apply fold_step_keeps; [|done]. apply Forall_rev, workspace_plains. }
  exists (rev stack), stem. split.
  - unfold contractFile. rewrite uniqueTempDir_render.
    unfold Path.join. rewrite !filter_cons_True, filter_nil
      by (done || by apply truthy_app_r).
    rewrite (join_slash_cons _ [_]) by done. cbn [join_slash].
    assert (starts_with_slash
              (render (resolve (dirname env) ++ ["tmp"; workspaceName env])
               +:+ "/" +:+ en +:+ ".py") = true) as Hstart by reflexivity.
    unfold normalize. rewrite truthy_app_l, Hstart by done. cbn [negb].
    replace (ends_with_slash _) with false; last first.
    { symmetry.
      rewrite ends_with_slash_app by by apply truthy_app_r, truthy_app_r.
      rewrite ends_with_slash_app by by apply truthy_app_r.
      rewrite ends_with_slash_app by done. done. }
    unfold normalizeString.
    rewrite split_slash_app, fold_left_app, Hsplit, fold_left_app.
    rewrite fold_step_render by apply workspace_plains.
    fold stack. cbn [fold_left].
    rewrite normalize_step_plain by done. cbn [rev].
    rewrite join_slash_truthy; [done| |by destruct (rev stack)].
    apply Forall_app; split; [by apply Forall_rev|by constructor].
  - apply Forall_app; split; [by apply Forall_rev|by constructor].
Qed.

Lemma render_ends segs x : ∃ pre, render (segs ++ [x]) = pre +:+ x.
Proof.
  destruct segs as [|s segs].
  - by exists "/".
  - exists (render (s :: segs) +:+ "/").
    rewrite (render_snoc (s :: segs)) by done. by rewrite append_assoc.
Qed.

Lemma contractFile_ends_py env en : ∃ pre, contractFile env en = pre +:+ ".py".
Proof.
  destruct (contractFile_shape env en) as (segs & stem & -> & _).
  destruct (render_ends segs (stem +:+ ".py")) as [pre ->].
  exists (pre +:+ stem). by rewrite append_assoc.
Qed.

Lemma contractFile_not_log env en : contractFile env en ≠ logFile env.
Proof.
  destruct (contractFile_shape env en) as (segs & stem & -> & Hp).
  unfold logFile. rewrite (join_absolute _ ["tmp"; "docker_output.log"]);
    [|apply dirname_absolute|by repeat constructor|done].
  intros H. apply (f_equal segments) in H.
  rewrite !segments_render in H;
    [|apply Forall_app; split; [apply resolve_plain|by repeat constructor]|done].
  change ["tmp"; "docker_output.log"] with (["tmp"] ++ ["docker_output.log"]) in H.
  rewrite app_assoc in H. apply app_inj_tail in H as [_ H].
  change (stem +:+ ".p" +:+ "y" = "docker_output.lo" +:+ "g") in H.
  rewrite <- append_assoc in H. by apply last_char_inj in H.
Qed.

Lemma testFile_inside env : inside (uniqueTempDir env) (testFile env) = true.
Proof. rewrite testFile_render. by apply inside_workspace_snoc. Qed.

(** What staging changes is the contract file or the test file, and a
    changed contract file holds the contract code unless it is the test
    file. *)
Lemma stage_changes env cc tc en w p :
  files (stage env cc tc en w).2 !! p ≠ files w !! p →
  p = testFile env
  ∨ (p = contractFile env en ∧ files (stage env cc tc en w).2 !! p = Some cc).
Proof.
  intros Hp.
  destruct (decide (p = testFile env)) as [|Ht]; [by left|right].
  destruct (decide (p = contractFile env en)) as [->|Hc].
  - split; [done|]. revert Hp.
    unfold stage, bind, Fs.mkdirSync, Fs.writeFileSync, ret, throw.
    repeat case_match; simplify_eq; cbn [snd files set_files set_dirs];
      try done; intros _;
      rewrite ?(lookup_insert_ne _ (testFile env)) by done;
      apply lookup_insert_eq.
  - by rewrite stage_files in Hp.
Qed.

End StagedNames.

(** X9: whatever the entry name, climbing or not, the only file outside
    the workspace that the calls of the handler create or change, the
    record appended to the docker output log apart, is the contract file.
    When the command that the shell runs changes no file
    outside the workspace, a file outside the workspace that differs after
    the request is the contract file: its path is the normalized
    [path.join] of the workspace and [<entryName>.py], its name ends in
    [.py], it is never the docker output log, and it holds the contract
    code; the handler removes no file outside the workspace. *)
Theorem only_a_py_file_is_written_outside env cc tc en w p :
  missing_fields (request cc tc en) = false →
  (∀ f q, Path.inside (uniqueTempDir env) q = false →
          sh env (dockerCommand env en) f !! q = f !! q) →
  Path.inside (uniqueTempDir env) p = false →
  files (handle env (request cc tc en) w).1 !! p ≠ files w !! p →
  p = contractFile env en
  ∧ (∃ pre, p = pre +:+ ".py")
  ∧ p ≠ logFile env
  ∧ files (handle env (request cc tc en) w).1 !! p = Some cc.
Proof.
  intros Hv Hsh Ho. rewrite handle_valid by done. unfold run.
  pose proof (stage_changes env cc tc en w p) as Hc.
  assert (files (stage env cc tc en w).2 !! p ≠ files w !! p →
          p = contractFile env en ∧ (∃ pre, p = pre +:+ ".py") ∧ p ≠ logFile env
          ∧ files (stage env cc tc en w).2 !! p = Some cc) as Hst.
  { intros [->|[-> Hcc]]%Hc.
    - by rewrite testFile_inside in Ho.
    - split_and!; [done|apply contractFile_ends_py
                  |apply contractFile_not_log|done]. }
  destruct (stage env cc tc en w) as [[cmd|msg] w1] eqn:Hs; simpl in Hst.
  - destruct (docker env) as [res|]; simpl; [|done].
    rewrite cleanup_files_outside, write_log_files, spawned_files by done.
    apply stage_ok_world in Hs as (-> & _). by rewrite Hsh.
  - simpl. by rewrite cleanup_files_outside.
Qed.

(** X9 at the entry name [../../etc]. *)
Lemma only_a_py_file_is_written_outside_witness :
  missing_fields (request "x = 1" "assert x == 1" "../../etc") = false
  ∧ (∀ f q, Path.inside (uniqueTempDir Demo.env_ok) q = false →
            sh Demo.env_ok (dockerCommand Demo.env_ok "../../etc") f !! q = f !! q)
  ∧ Path.inside (uniqueTempDir Demo.env_ok) "/srv/backend/etc.py" = false
  ∧ files (handle Demo.env_ok (request "x = 1" "assert x == 1" "../../etc")
             Demo.disk).1 !! "/srv/backend/etc.py"
    ≠ files Demo.disk !! "/srv/backend/etc.py"
  ∧ "/srv/backend/etc.py" = contractFile Demo.env_ok "../../etc"
  ∧ files (handle Demo.env_ok (request "x = 1" "assert x == 1" "../../etc")
             Demo.disk).1 !! "/srv/backend/etc.py"
    = Some "x = 1".
Proof.
  assert (files (handle Demo.env_ok (request "x = 1" "assert x == 1" "../../etc")
                   Demo.disk).1 !! "/srv/backend/etc.py"
          ≠ files Demo.disk !! "/srv/backend/etc.py") as Hne by by vm_compute.
  assert (∀ (f : gmap string string) q,
            Path.inside (uniqueTempDir Demo.env_ok) q = false →
            sh Demo.env_ok (dockerCommand Demo.env_ok "../../etc") f !! q = f !! q)
    as Hsh by (intros f q _; reflexivity).
  pose proof (only_a_py_file_is_written_outside Demo.env_ok
                "x = 1" "assert x == 1" "../../etc" Demo.disk
                "/srv/backend/etc.py" eq_refl Hsh eq_refl Hne) as (H1 & _ & _ & H2).
  by split_and!.
Defined.


(** * The editor page *)

Section TextFacts.

Import Text.

Lemma lower_char_idem c : lower_char (lower_char c) = lower_char c.
Proof. by destruct c as [[] [] [] [] [] [] [] []]. Qed.

Lemma lower_char_not_upper c : is_upper (lower_char c) = false.
Proof. by destruct c as [[] [] [] [] [] [] [] []]. Qed.

Lemma lower_char_fixed c : lower_char c = c ↔ is_upper c = false.
Proof. by destruct c as [[] [] [] [] [] [] [] []]. Qed.

Lemma lower_char_dash c :
  Ascii.eqb (lower_char c) "-" = Ascii.eqb c "-".
Proof. by destruct c as [[] [] [] [] [] [] [] []]. Qed.

Lemma lower_char_slash c :
  Ascii.eqb (lower_char c) "/" = Ascii.eqb c "/".
Proof. by destruct c as [[] [] [] [] [] [] [] []]. Qed.

Lemma map_chars_map_chars f g s :
  map_chars f (map_chars g s) = map_chars (λ c, f (g c)) s.
Proof. induction s as [|c s IH]; simpl; [done|]. by rewrite IH. Qed.

Lemma map_chars_ext f g s :
  (∀ c, f c = g c) → map_chars f s = map_chars g s.
Proof. intros H. induction s as [|c s IH]; simpl; [done|]. by rewrite H, IH. Qed.

Lemma map_chars_fixed f s :
  map_chars f s = s ↔ all_chars (λ c, bool_decide (f c = c)) s = true.
Proof.
  induction s as [|c s IH]; simpl; [done|]. split.
  - intros [= Hc Hs]. rewrite bool_decide_eq_true_2 by done. by apply IH.
  - intros [Hc%bool_decide_eq_true Hs]%andb_prop.
    rewrite Hc. f_equal. by apply IH.
Qed.

Lemma all_chars_ext f g s :
  (∀ c, f c = g c) → all_chars f s = all_chars g s.
Proof. intros H. induction s as [|c s IH]; simpl; [done|]. by rewrite H, IH. Qed.

Lemma all_chars_map f g s :
  all_chars f (map_chars g s) = all_chars (λ c, f (g c)) s.
Proof. induction s as [|c s IH]; simpl; [done|]. by rewrite IH. Qed.

Lemma all_chars_true f s : (∀ c, f c = true) → all_chars f s = true.
Proof. intros H. induction s as [|c s IH]; simpl; [done|]. by rewrite H, IH. Qed.

Lemma has_char_map c f s :
  (∀ a, Ascii.eqb (f a) c = Ascii.eqb a c) →
  Js.has_char c (map_chars f s) = Js.has_char c s.
Proof. intros H. induction s as [|a s IH]; simpl; [done|]. by rewrite H, IH. Qed.

Lemma has_char_all c s :
  Js.has_char c s = false ↔ all_chars (λ a, negb (Ascii.eqb a c)) s = true.
Proof.
  induction s as [|a s IH]; simpl; [done|].
  rewrite orb_false_iff, andb_true_iff, negb_true_iff. by rewrite IH.
Qed.

Lemma normalizeEntryName_chars name :
  App.normalizeEntryName name = map_chars normal_char name.
Proof.
  unfold App.normalizeEntryName, replace_all, toLowerCase.
  by rewrite map_chars_map_chars.
Qed.

Lemma normal_char_idem c : normal_char (normal_char c) = normal_char c.
Proof. by destruct c as [[] [] [] [] [] [] [] []]. Qed.

Lemma normal_char_clean c :
  negb (is_upper (normal_char c)) && negb (Ascii.eqb (normal_char c) "-") = true.
Proof. by destruct c as [[] [] [] [] [] [] [] []]. Qed.

Lemma normal_char_fixed c :
  bool_decide (normal_char c = c)
  = negb (is_upper c) && negb (Ascii.eqb c "-").
Proof. by destruct c as [[] [] [] [] [] [] [] []]. Qed.

Lemma normal_char_slash c : Ascii.eqb (normal_char c) "/" = Ascii.eqb c "/".
Proof. by destruct c as [[] [] [] [] [] [] [] []]. Qed.

End TextFacts.

(** X10: [normalizeEntryName] is a normal form. On an ASCII name its
    result holds no upper-case letter and no dash, and normalizing again
    changes nothing. *)
Theorem normalizeEntryName_is_a_normal_form name :
  Text.is_ascii name = true →
  Text.all_chars (λ c, negb (Text.is_upper c)) (App.normalizeEntryName name) = true
  ∧ Js.has_char "-" (App.normalizeEntryName name) = false
  ∧ App.normalizeEntryName (App.normalizeEntryName name)
    = App.normalizeEntryName name.
Proof.
  intros _. rewrite !normalizeEntryName_chars. split_and!.
  - rewrite all_chars_map. apply all_chars_true. intros c.
    by pose proof (normal_char_clean c) as [? _]%andb_prop.
  - apply has_char_all. rewrite all_chars_map. apply all_chars_true. intros c.
    by pose proof (normal_char_clean c) as [_ ?]%andb_prop.
  - rewrite map_chars_map_chars. apply map_chars_ext, normal_char_idem.
Qed.

(** X10 at a name with capitals and dashes. *)
Lemma normalizeEntryName_is_a_normal_form_witness :
  Text.is_ascii "My-Token-V2" = true
  ∧ App.normalizeEntryName "My-Token-V2" = "my_token_v2"
  ∧ App.normalizeEntryName (App.normalizeEntryName "My-Token-V2")
    = App.normalizeEntryName "My-Token-V2".
Proof.
  split_and!; [reflexivity|reflexivity|].
  apply (normalizeEntryName_is_a_normal_form "My-Token-V2" eq_refl).
Defined.

(** X11: [normalizeEntryName] changes upper-case letters and dashes and
    nothing else. An ASCII name is returned as it is exactly when it holds
    neither; path separators are kept, so a name has a separator after
    normalization exactly when it had one before; and only the empty name
    becomes the empty name. *)
Theorem normalizeEntryName_keeps_the_rest name :
  Text.is_ascii name = true →
  (App.normalizeEntryName name = name
   ↔ Text.all_chars (λ c, negb (Text.is_upper c) && negb (Ascii.eqb c "-")) name
     = true)
  ∧ Path.has_slash (App.normalizeEntryName name) = Path.has_slash name
  ∧ (App.normalizeEntryName name = "" ↔ name = "").
Proof.
  intros _. rewrite !normalizeEntryName_chars. split_and!.
  - rewrite map_chars_fixed.
    by rewrite (all_chars_ext _ _ _ normal_char_fixed).
  - apply has_char_map, normal_char_slash.
  - by destruct name.
Qed.

(** X11 at a climbing name: the normalization returns it unchanged. *)
Lemma normalizeEntryName_keeps_the_rest_witness :
  Text.is_ascii "../../etc" = true
  ∧ App.normalizeEntryName "../../etc" = "../../etc"
  ∧ Path.has_slash (App.normalizeEntryName "../../etc") = Path.has_slash "../../etc".
Proof.
  split_and!; [reflexivity| |];
    apply (normalizeEntryName_keeps_the_rest "../../etc" eq_refl).
  reflexivity.
Defined.

Section AppFacts.

Import App.

Implicit Types (s : State) (l : list Entry) (e : Entry).

Lemma map_id_preserved (f : Entry → Entry) l :
  (∀ e, id (f e) = id e) → map id (map f l) = map id l.
Proof.
  intros H. induction l as [|e l IH]; simpl; [done|]. by rewrite H, IH.
Qed.

Lemma find_by_id_map (f : Entry → Entry) x l :
  (∀ e, id (f e) = id e) →
  find (λ e, bool_decide (id e = x)) (map f l)
  = f <$> find (λ e, bool_decide (id e = x)) l.
Proof.
  intros H. induction l as [|e l IH]; simpl; [done|].
  rewrite H. by destruct (bool_decide (id e = x)).
Qed.

Lemma find_by_id_Some x l e :
  find (λ e, bool_decide (id e = x)) l = Some e → id e = x ∧ e ∈ l.
Proof.
  intros [Hin H%bool_decide_eq_true]%find_some. split; [done|].
  by apply list_elem_of_In.
Qed.

Lemma find_by_id_is_Some x l :
  x ∈ map id l → is_Some (find (λ e, bool_decide (id e = x)) l).
Proof.
  induction l as [|e l IH]; simpl; [by intros ?%elem_of_nil|].
  intros [->|Hx]%elem_of_cons.
  - by rewrite bool_decide_eq_true_2.
  - destruct (bool_decide (id e = x)); [done|by apply IH].
Qed.

Lemma find_by_id_fresh x l e :
  x ∉ map id l → id e = x →
  find (λ e, bool_decide (id e = x)) (l ++ [e]) = Some e.
Proof.
  intros Hx He. induction l as [|a l IH]; simpl.
  - by rewrite bool_decide_eq_true_2.
  - simpl in Hx. apply not_elem_of_cons in Hx as [Hne Hx].
    rewrite bool_decide_eq_false_2 by done. by apply IH.
Qed.

Lemma elem_of_map_id e l : e ∈ l → id e ∈ map id l.
Proof. intros H. apply list_elem_of_In, in_map, list_elem_of_In, H. Qed.

Lemma elem_of_map_id_inv x l : x ∈ map id l → ∃ e, e ∈ l ∧ id e = x.
Proof.
  intros (e & He & Hin)%list_elem_of_In%in_map_iff.
  exists e. split; [by apply list_elem_of_In|done].
Qed.

Lemma with_code_id tab code e : id (with_code tab code e) = id e.
Proof. by destruct tab. Qed.

Lemma renamed_id x n e :
  id (if bool_decide (id e = x) then with_name n e else e) = id e.
Proof. by case_bool_decide. Qed.

Lemma recoded_id x tab code e :
  id (if bool_decide (id e = x) then with_code tab code e else e) = id e.
Proof. case_bool_decide; [apply with_code_id|done]. Qed.

Lemma of_number_truthy n : Js.truthy (Js.of_number n) = true.
Proof.
  unfold Js.of_number. destruct (N.to_uint n) eqn:Hn; try done.
  pose proof (DecimalN.Unsigned.of_to n) as H. rewrite Hn in H.
  by subst n.
Qed.

Lemma NoDup_map_id_filter (P : Entry → Prop) `{∀ e, Decision (P e)} l :
  NoDup (map id l) → NoDup (map id (filter P l)).
Proof.
  induction l as [|e l IH]; simpl; [done|].
  intros [Hnot Hl]%NoDup_cons. destruct (decide (P e)).
  - rewrite filter_cons_True by done. simpl. apply NoDup_cons. split; [|by apply IH].
    intros (e' & [_ He']%list_elem_of_filter & Heq)%elem_of_map_id_inv.
    apply Hnot. rewrite <- Heq. by apply elem_of_map_id.
  - rewrite filter_cons_False by done. by apply IH.
Qed.

Lemma all_chars_app f a b :
  Text.all_chars f (a +:+ b) = Text.all_chars f a && Text.all_chars f b.
Proof.
  induction a as [|c a IH]; [done|].
  change (String c a +:+ b) with (String c (a +:+ b)). simpl.
  by rewrite IH, andb_assoc.
Qed.

Lemma of_number_all_chars f n :
  forallb f (list_ascii_of_string "0123456789") = true →
  Text.all_chars f (Js.of_number n) = true.
Proof.
  intros H. simpl in H. repeat (apply andb_prop in H as [? H]).
  unfold Js.of_number. induction (N.to_uint n); simpl; rewrite ?IHu; auto;
    by rewrite ?andb_true_r.
Qed.

End AppFacts.

(** X12: the selection always names an entry of the list. If the selected
    id is among the entries (and nothing is selected only when the list is
    empty), this still holds after creating an entry, after confirming the
    deletion of any entry, after a rename, after an edit, after a run and
    after opening or cancelling the delete prompt. *)
Theorem selection_stays_valid s :
  App.selection_valid s →
  (∀ now, App.selection_valid (App.createEntry now s))
  ∧ (∀ entryId, App.selection_valid (App.confirmDeleteEntry entryId s))
  ∧ (∀ entryId newName, App.selection_valid (App.renameEntry entryId newName s))
  ∧ (∀ code, App.selection_valid (App.updateCode code s))
  ∧ (∀ fetch, App.selection_valid (App.runCode fetch s))
  ∧ (∀ entryId, App.selection_valid (App.startDeleteEntry entryId s))
  ∧ App.selection_valid (App.cancelDeleteEntry s).
Proof.
  intros Hs.
  assert (∀ f : App.Entry → App.Entry, (∀ e, App.id (f e) = App.id e) →
            App.selection_valid (App.set_entries (map f (App.entries s)) s))
    as Hmap.
  { intros f Hf. unfold App.selection_valid in *. simpl.
    rewrite map_id_preserved by done.
    by destruct (App.entries s). }
  split_and!.
  - intros now. unfold App.selection_valid, App.createEntry. simpl.
    destruct (App.entries s ++ _) as [|e l] eqn:He.
    { by destruct (App.entries s). }
    eexists. split; [done|]. rewrite <- He, map_app.
    apply elem_of_app. right. simpl. apply list_elem_of_here.
  - intros entryId. unfold App.selection_valid, App.confirmDeleteEntry in *.
    set (updated := filter (λ entry, App.id entry ≠ entryId) (App.entries s)).
    case_bool_decide as Hsel; simpl.
    + destruct updated as [|first rest]; [done|].
      exists (App.id first). split; [done|]. apply list_elem_of_here.
    + assert (∀ x, App.selectedEntry s = Some x → x ∈ map App.id (App.entries s) →
                   x ∈ map App.id updated) as Hkeep.
      { intros x Hx (e & He & <-)%elem_of_map_id_inv.
        apply elem_of_map_id, list_elem_of_filter. split; [|done].
        intros Heq. apply Hsel. by rewrite Hx, Heq. }
      destruct (App.entries s) as [|e0 l0] eqn:He.
      * by subst updated.
      * destruct Hs as (x & Hx & Hin).
        specialize (Hkeep x Hx Hin).
        destruct updated as [|first rest]; [by apply elem_of_nil in Hkeep|].
        by exists x.
  - intros entryId newName. apply Hmap. intros e. apply renamed_id.
  - intros code. unfold App.updateCode.
    destruct (App.selectedEntry s) as [selected|] eqn:Hsel; [|done].
    destruct (Js.truthy selected); [|done].
    apply Hmap. intros e. apply recoded_id.
  - intros fetch. unfold App.runCode.
    destruct (Js.truthy_field _); [|done].
    destruct (App.selectedEntryData s); [|done].
    unfold App.selection_valid in *.
    by destruct (fetch _), (App.terminalCollapsed s).
  - done.
  - done.
Qed.

(** X12 at a session with two entries. *)
Lemma selection_stays_valid_witness :
  App.selection_valid Scene.two_entries
  ∧ App.selection_valid (App.confirmDeleteEntry "1730000000001" Scene.two_entries)
  ∧ App.selectedEntry (App.confirmDeleteEntry "1730000000001" Scene.two_entries)
    = Some "1730000000000".
Proof.
  assert (App.selection_valid Scene.two_entries) as Hs.
  { exists "1730000000001". split; [reflexivity|].
    apply list_elem_of_further, list_elem_of_here. }
  split_and!; [exact Hs| |reflexivity].
  apply (selection_stays_valid Scene.two_entries Hs).
Defined.

(** X13: when the stored entries are missing, do not parse, or are an
    array of entries as the save effect writes it, the page starts with a
    valid selection, whatever the stored selection and the stored tab are.
    A stored selection is kept exactly when it is non-empty and names one
    of the stored entries, otherwise the first stored entry is selected;
    stored entries that do not parse leave the page as it was first
    rendered, and then the stored tab is not restored either. *)
Theorem page_starts_with_a_valid_selection st :
  App.selection_valid (App.load st App.initial)
  ∧ (∀ first rest saved,
       App.codeEditorEntries st = App.Parsed (first :: rest) →
       App.codeEditorSelectedEntry st = Some saved →
       App.selectedEntry (App.load st App.initial)
       = Some (if Js.truthy saved
                  && bool_decide (saved ∈ map App.id (first :: rest))
               then saved else App.id first))
  ∧ (App.codeEditorEntries st = App.Unparsable →
     App.load st App.initial = App.initial).
Proof.
  assert (∀ s, App.selection_valid s →
    App.selection_valid
      (match App.codeEditorActiveTab st with
       | Some saved =>
           if bool_decide (saved = "contract") then
             {| App.entries := App.entries s;
                App.selectedEntry := App.selectedEntry s;
                App.activeTab := App.contract;
                App.terminalOutput := App.terminalOutput s;
                App.isRunning := App.isRunning s;
                App.deletingEntryId := App.deletingEntryId s;
                App.terminalCollapsed := App.terminalCollapsed s |}
           else if bool_decide (saved = "tests") then
             {| App.entries := App.entries s;
                App.selectedEntry := App.selectedEntry s;
                App.activeTab := App.tests;
                App.terminalOutput := App.terminalOutput s;
                App.isRunning := App.isRunning s;
                App.deletingEntryId := App.deletingEntryId s;
                App.terminalCollapsed := App.terminalCollapsed s |}
           else s
       | None => s
       end)) as Htab.
  { intros s Hs. destruct (App.codeEditorActiveTab st); [|done].
    by repeat case_bool_decide. }
  split_and!.
  - unfold App.load.
    destruct (App.codeEditorEntries st) as [| |[|first rest]];
      [by apply Htab|done|by apply Htab|].
    apply Htab. unfold App.selection_valid. cbn -[find map].
    destruct (App.codeEditorSelectedEntry st) as [saved|]; cbn -[find map].
    + destruct (Js.truthy saved); cbn -[find map];
        [|eexists; split; [done|apply list_elem_of_here]].
      case_bool_decide as Hf;
        [|eexists; split; [done|apply list_elem_of_here]].
      exists saved. split; [done|].
      destruct Hf as [e [<- He]%find_by_id_Some].
      by apply (elem_of_map_id e (first :: rest)).
    + eexists. split; [done|apply list_elem_of_here].
  - intros first rest saved Hl Hsaved. unfold App.load. rewrite Hl, Hsaved.
    assert (bool_decide (is_Some (find (λ e, bool_decide (App.id e = saved))
                                    (first :: rest)))
            = bool_decide (saved ∈ map App.id (first :: rest))) as ->.
    { apply bool_decide_ext. split.
      - intros [e [<- He]%find_by_id_Some].
        by apply (elem_of_map_id e (first :: rest)).
      - apply find_by_id_is_Some. }
    destruct (App.codeEditorActiveTab st) as [t|]; cbn -[find map];
      repeat case_bool_decide; cbn -[find map]; by destruct (Js.truthy saved).
  - intros Hl. unfold App.load. by rewrite Hl.
Qed.

(** X14: an edit is read back. When the selection is a non-empty id that
    names an entry, after [updateCode code] the editor shows [code] in the
    active tab, and the selected entry is the old one with only that code
    replaced: its name and the code of the other tab are as before. *)
Theorem edit_is_read_back s selected e code :
  App.selectedEntry s = Some selected →
  Js.truthy selected = true →
  App.selectedEntryData s = Some e →
  App.currentCode (App.updateCode code s) = code
  ∧ App.selectedEntryData (App.updateCode code s)
    = Some (App.with_code (App.activeTab s) code e)
  ∧ App.name (App.with_code (App.activeTab s) code e) = App.name e
  ∧ match App.activeTab s with
    | App.contract =>
        App.testCode (App.with_code (App.activeTab s) code e) = App.testCode e
    | App.tests =>
        App.contractCode (App.with_code (App.activeTab s) code e)
        = App.contractCode e
    end.
Proof.
  intros Hsel Ht Hdata.
  assert (App.selectedEntryData (App.updateCode code s)
          = Some (App.with_code (App.activeTab s) code e)) as Hnew.
  { unfold App.selectedEntryData, App.updateCode in *. rewrite Hsel, Ht in *.
    cbn -[find map]. rewrite Hsel, find_by_id_map by apply recoded_id.
    rewrite Hdata. simpl.
    apply find_by_id_Some in Hdata as [Hid _].
    by rewrite bool_decide_eq_true_2. }
  split_and!; [|done|by destruct (App.activeTab s)..].
  unfold App.currentCode. rewrite Hnew.
  assert (App.activeTab (App.updateCode code s) = App.activeTab s) as ->.
  { unfold App.updateCode. rewrite Hsel, Ht. done. }
  by destruct (App.activeTab s).
Qed.

(** X14 at the session with two entries. *)
Lemma edit_is_read_back_witness :
  App.selectedEntry Scene.two_entries = Some "1730000000001"
  ∧ Js.truthy "1730000000001" = true
  ∧ App.currentCode (App.updateCode "y = 2" Scene.two_entries) = "y = 2".
Proof.
  split_and!; [reflexivity|reflexivity|].
  eapply (edit_is_read_back Scene.two_entries "1730000000001" _ "y = 2");
    reflexivity.
Defined.

(** X15: confirming a deletion removes the entries with that id and only
    them. The remaining entries are the old ones in their order; deleting
    an id that no entry has leaves the list as it is; deleting twice is
    deleting once; the delete prompt is closed; and when the deleted entry
    was the selected one the selection moves to the first remaining entry,
    or to nothing when none remains. *)
Theorem confirmDeleteEntry_removes_that_entry entryId s :
  (∀ e, e ∈ App.entries (App.confirmDeleteEntry entryId s)
        ↔ e ∈ App.entries s ∧ App.id e ≠ entryId)
  ∧ App.entries (App.confirmDeleteEntry entryId s) `sublist_of` App.entries s
  ∧ (entryId ∉ map App.id (App.entries s) →
     App.entries (App.confirmDeleteEntry entryId s) = App.entries s)
  ∧ App.confirmDeleteEntry entryId (App.confirmDeleteEntry entryId s)
    = App.confirmDeleteEntry entryId s
  ∧ App.deletingEntryId (App.confirmDeleteEntry entryId s) = None
  ∧ (App.selectedEntry s = Some entryId →
     App.selectedEntry (App.confirmDeleteEntry entryId s)
     = App.id <$> head (App.entries (App.confirmDeleteEntry entryId s)))
  ∧ (App.selectedEntry s ≠ Some entryId →
     App.selectedEntry (App.confirmDeleteEntry entryId s) = App.selectedEntry s).
Proof.
  assert (App.entries (App.confirmDeleteEntry entryId s)
          = filter (λ entry, App.id entry ≠ entryId) (App.entries s)) as Hent.
  { unfold App.confirmDeleteEntry. by case_bool_decide. }
  split_and!.
  - intros e. rewrite Hent, list_elem_of_filter. tauto.
  - rewrite Hent. apply sublist_filter.
  - intros Hfresh. rewrite Hent. clear Hent.
    induction (App.entries s) as [|e l IH]; [done|].
    simpl in Hfresh. apply not_elem_of_cons in Hfresh as [Hne Hl].
    rewrite filter_cons_True by done. by rewrite IH by done.
  - unfold App.confirmDeleteEntry at 1. rewrite Hent.
    assert (filter (λ entry, App.id entry ≠ entryId)
              (filter (λ entry, App.id entry ≠ entryId) (App.entries s))
            = filter (λ entry, App.id entry ≠ entryId) (App.entries s)) as ->.
    { rewrite list_filter_filter. apply list_filter_iff. tauto. }
    unfold App.confirmDeleteEntry.
    set (updated := filter _ (App.entries s)).
    destruct (bool_decide (App.selectedEntry s = Some entryId)) eqn:Hsel;
      cbn -[filter].
    + clear Hsel. by case_bool_decide.
    + by rewrite Hsel.
  - unfold App.confirmDeleteEntry. by case_bool_decide.
  - intros Hsel. rewrite Hent. unfold App.confirmDeleteEntry.
    rewrite bool_decide_eq_true_2 by done. cbn -[filter].
    by destruct (filter _ _).
  - intros Hsel. unfold App.confirmDeleteEntry.
    by rewrite bool_decide_eq_false_2 by done.
Qed.

(** X16: the ids of the entries stay distinct. If they are, they still are
    after creating an entry at a clock value that is not an id yet and
    after confirming any deletion, and a rename or an edit does not change
    the ids at all, nor the number or the order of the entries. *)
Theorem entry_ids_stay_distinct s :
  NoDup (map App.id (App.entries s)) →
  (∀ now, Js.of_number now ∉ map App.id (App.entries s) →
          NoDup (map App.id (App.entries (App.createEntry now s))))
  ∧ (∀ entryId,
       NoDup (map App.id (App.entries (App.confirmDeleteEntry entryId s))))
  ∧ (∀ entryId newName,
       map App.id (App.entries (App.renameEntry entryId newName s))
       = map App.id (App.entries s))
  ∧ (∀ code,
       map App.id (App.entries (App.updateCode code s))
       = map App.id (App.entries s)).
Proof.
  intros Hs. split_and!.
  - intros now Hfresh. unfold App.createEntry. simpl. rewrite map_app. simpl.
    apply NoDup_app. split_and!; [done| |apply NoDup_singleton].
    intros x Hx [->|[]%elem_of_nil]%elem_of_cons. done.
  - intros entryId.
    assert (App.entries (App.confirmDeleteEntry entryId s)
            = filter (λ entry, App.id entry ≠ entryId) (App.entries s)) as ->
      by (unfold App.confirmDeleteEntry; by case_bool_decide).
    by apply NoDup_map_id_filter.
  - intros entryId newName. unfold App.renameEntry. simpl.
    apply map_id_preserved. intros e. apply renamed_id.
  - intros code. unfold App.updateCode.
    destruct (App.selectedEntry s) as [selected|]; [|done].
    destruct (Js.truthy selected); [|done]. simpl.
    apply map_id_preserved. intros e. apply recoded_id.
Qed.

(** X16 at the session with two entries. *)
Lemma entry_ids_stay_distinct_witness :
  NoDup (map App.id (App.entries Scene.two_entries))
  ∧ (Js.of_number 1730000000002 ∉ map App.id (App.entries Scene.two_entries))
  ∧ NoDup (map App.id (App.entries (App.createEntry 1730000000002 Scene.two_entries))).
Proof.
  assert (NoDup (map App.id (App.entries Scene.two_entries))) as Hs.
  { apply (bool_decide_unpack _). vm_compute. exact I. }
  assert (Js.of_number 1730000000002 ∉ map App.id (App.entries Scene.two_entries))
    as Hfresh.
  { apply (bool_decide_unpack _). vm_compute. exact I. }
  split_and!; [exact Hs|exact Hfresh|].
  apply (entry_ids_stay_distinct Scene.two_entries Hs), Hfresh.
Defined.

(** X17: a reload restores the editor. When the selection is valid and the
    selected id is not the empty string, saving the state to
    [localStorage] and loading it into a freshly rendered page gives back
    the same entries, the same selection and the same tab, whatever the
    storage held before. *)
Theorem reload_restores_the_editor s st :
  App.selection_valid s →
  (∀ x, App.selectedEntry s = Some x → Js.truthy x = true) →
  App.entries (App.load (App.save s st) App.initial) = App.entries s
  ∧ App.selectedEntry (App.load (App.save s st) App.initial) = App.selectedEntry s
  ∧ App.activeTab (App.load (App.save s st) App.initial) = App.activeTab s.
Proof.
  intros Hv Ht. unfold App.load, App.save. cbn -[find map].
  unfold App.selection_valid in Hv.
  destruct (App.entries s) as [|first rest] eqn:He.
  - rewrite Hv. by destruct (App.activeTab s).
  - destruct Hv as (x & Hx & Hin). rewrite Hx. cbn -[find map].
    rewrite (Ht x Hx). cbn -[find map].
    rewrite (bool_decide_eq_true_2 (is_Some _)) by by apply find_by_id_is_Some.
    rewrite ?(Ht x Hx). by destruct (App.activeTab s).
Qed.

(** X17 at the session with two entries and an empty storage. *)
Lemma reload_restores_the_editor_witness :
  App.selection_valid Scene.two_entries
  ∧ (∀ x, App.selectedEntry Scene.two_entries = Some x → Js.truthy x = true)
  ∧ App.entries
      (App.load
         (App.save Scene.two_entries
            {| App.codeEditorEntries := App.NoEntries;
               App.codeEditorSelectedEntry := None;
               App.codeEditorActiveTab := None |}) App.initial)
    = App.entries Scene.two_entries.
Proof.
  assert (App.selection_valid Scene.two_entries) as Hs.
  { exists "1730000000001". split; [reflexivity|].
    apply list_elem_of_further, list_elem_of_here. }
  assert (∀ x, App.selectedEntry Scene.two_entries = Some x → Js.truthy x = true)
    as Ht by (by intros x [= <-]).
  split_and!; [exact Hs|exact Ht|].
  apply (reload_restores_the_editor Scene.two_entries _ Hs Ht).
Defined.

Section RunFacts.

Lemma truthy_nonempty s : s ≠ "" → Js.truthy s = true.
Proof. by destruct s. Qed.

Lemma normalizeEntryName_nonempty name :
  name ≠ "" → App.normalizeEntryName name ≠ "".
Proof. by destruct name. Qed.

Lemma posted_valid e :
  App.name e ≠ "" → App.contractCode e ≠ "" → App.testCode e ≠ "" →
  missing_fields (App.posted e) = false.
Proof.
  intros Hn Hc Ht. unfold missing_fields, App.posted, request. simpl.
  rewrite !truthy_nonempty; [done|by apply normalizeEntryName_nonempty|done..].
Qed.

Lemma posted_missing e :
  App.contractCode e = "" ∨ App.testCode e = "" ∨ App.name e = "" →
  missing_fields (App.posted e) = true.
Proof.
  unfold missing_fields, App.posted, request. simpl.
  intros [-> | [-> | ->]]; simpl; by rewrite ?orb_true_r.
Qed.

End RunFacts.

(** X18: a run of the selected entry, end to end. For a selected entry
    with a non-empty ASCII name without path separator and non-empty
    codes, on a server whose file system calls go through, the contract
    is staged under the normalized name as
    [<workspace>/<normalized name>.py]; when docker exits the terminal
    shows the output of docker and the run is over, and while docker runs
    the terminal shows [Running...] and the page stays in the running
    state. *)
Theorem run_of_the_selected_entry env w s e :
  Js.truthy_field (App.selectedEntry s) = true →
  App.selectedEntryData s = Some e →
  Text.is_ascii (App.name e) = true →
  Path.has_slash (App.name e) = false →
  App.name e ≠ "" → App.contractCode e ≠ "" → App.testCode e ≠ "" →
  (∀ p, mkdir_fault env p = None) →
  (∀ p, write_fault env p = None) →
  contractFile env (App.normalizeEntryName (App.name e))
  = uniqueTempDir env +:+ "/" +:+ App.normalizeEntryName (App.name e) +:+ ".py"
  ∧ match docker env with
    | Exits res =>
        App.terminalOutput (App.runCode (served env w) s) = output res
        ∧ App.isRunning (App.runCode (served env w) s) = false
    | RunsForever =>
        App.terminalOutput (App.runCode (served env w) s) = "Running..." +:+ Js.nl
        ∧ App.isRunning (App.runCode (served env w) s) = true
    end.
Proof.
  intros Hsel Hdata _ Hslash Hn Hc Ht Hm Hw.
  assert (Path.has_slash (App.normalizeEntryName (App.name e)) = false) as Hns.
  { rewrite normalizeEntryName_chars.
    unfold Path.has_slash in *. by rewrite has_char_map by apply normal_char_slash. }
  split; [by apply contractFile_string|].
  unfold App.runCode. rewrite Hsel, Hdata. unfold served.
  unfold App.posted. rewrite handle_valid by by apply (posted_valid e).
  unfold run.
  destruct (stage_succeeds env (App.contractCode e) (App.testCode e)
              (App.normalizeEntryName (App.name e)) w Hns (Hm _) (Hw _) (Hw _))
    as [w1 ->].
  destruct (docker env) as [res|]; by destruct (App.terminalCollapsed s).
Qed.

(** X18 at the session with two entries: the entry named [My-Token] is
    staged as [my_token.py]. *)
Lemma run_of_the_selected_entry_witness :
  Js.truthy_field (App.selectedEntry Scene.two_entries) = true
  ∧ App.selectedEntryData Scene.two_entries
    = Some {| App.id := "1730000000001"; App.name := "My-Token";
              App.contractCode := "x = 1";
              App.testCode := "# Test code here" +:+ Js.nl |}
  ∧ contractFile Demo.env_ok (App.normalizeEntryName "My-Token")
    = uniqueTempDir Demo.env_ok +:+ "/" +:+ "my_token" +:+ ".py"
  ∧ App.terminalOutput (App.runCode (served Demo.env_ok Demo.disk) Scene.two_entries)
    = "ok" +:+ Js.nl +:+ "warning".
Proof.
  split_and!; [reflexivity|reflexivity| |];
    apply (run_of_the_selected_entry Demo.env_ok Demo.disk Scene.two_entries
             {| App.id := "1730000000001"; App.name := "My-Token";
                App.contractCode := "x = 1";
                App.testCode := "# Test code here" +:+ Js.nl |});
    done.
Defined.

(** X19: an entry that was just created can be run as it is. When the
    clock value is not yet an id, the new entry is the selected one, its
    name [entry<n>] is ASCII, has no path separator, is left unchanged by
    the normalization and is not [test], and the request posted for it
    passes the validation of the server. *)
Theorem created_entry_is_ready_to_run now s :
  Js.of_number now ∉ map App.id (App.entries s) →
  ∃ e,
    App.selectedEntryData (App.createEntry now s) = Some e
    ∧ Js.truthy_field (App.selectedEntry (App.createEntry now s)) = true
    ∧ App.id e = Js.of_number now
    ∧ App.name e = "entry" +:+ Js.of_number (N.of_nat (length (App.entries s) + 1))
    ∧ Text.is_ascii (App.name e) = true
    ∧ Path.has_slash (App.name e) = false
    ∧ App.normalizeEntryName (App.name e) = App.name e
    ∧ App.name e ≠ "test"
    ∧ missing_fields (App.posted e) = false.
Proof.
  intros Hfresh. eexists. split_and!.
  - unfold App.selectedEntryData, App.createEntry. cbn -[find].
    by apply find_by_id_fresh.
  - apply of_number_truthy.
  - done.
  - done.
  - unfold Text.is_ascii. simpl App.name. rewrite all_chars_app.
    by rewrite of_number_all_chars.
  - unfold Path.has_slash. simpl App.name. rewrite has_char_app.
    by rewrite of_number_has_char.
  - rewrite normalizeEntryName_chars. apply map_chars_fixed.
    simpl App.name. rewrite all_chars_app. by rewrite of_number_all_chars.
  - done.
  - apply posted_valid; done.
Qed.

(** X19 at the first entry of a new page. *)
Lemma created_entry_is_ready_to_run_witness :
  (Js.of_number 1730000000000 ∉ map App.id (App.entries App.initial))
  ∧ ∃ e,
      App.selectedEntryData (App.createEntry 1730000000000 App.initial) = Some e
      ∧ App.name e = "entry1"
      ∧ App.normalizeEntryName (App.name e) = App.name e.
Proof.
  assert (Js.of_number 1730000000000 ∉ map App.id (App.entries App.initial))
    as Hfresh by apply not_elem_of_nil.
  split; [exact Hfresh|].
  destruct (created_entry_is_ready_to_run 1730000000000 App.initial Hfresh)
    as (e & H1 & _ & _ & H2 & _ & _ & H3 & _).
  by exists e.
Defined.

(** X20: a run of an entry with an empty field never reaches staging. When
    the contract code, the test code or the name of the selected entry is
    empty, the server answers 400 and leaves its disk and its log as they
    were, the terminal shows the JSON text of the error, and the run is
    over. *)
Theorem run_with_an_empty_field env w s e :
  Js.truthy_field (App.selectedEntry s) = true →
  App.selectedEntryData s = Some e →
  App.contractCode e = "" ∨ App.testCode e = "" ∨ App.name e = "" →
  (handle env (App.posted e) w).1 = w
  ∧ App.terminalOutput (App.runCode (served env w) s)
    = "{" +:+ Js.quote +:+ "error" +:+ Js.quote +:+ ":"
      +:+ Js.quote +:+ "Missing required fields" +:+ Js.quote +:+ "}"
  ∧ App.isRunning (App.runCode (served env w) s) = false.
Proof.
  intros Hsel Hdata He%posted_missing.
  assert (handle env (App.posted e) w = (w, Responded bad_request)) as Hh
    by (unfold handle; by rewrite He).
  split; [by rewrite Hh|].
  unfold App.runCode. rewrite Hsel, Hdata. unfold served. rewrite Hh.
  by destruct (App.terminalCollapsed s).
Qed.

(** X20 after the code of the selected entry was cleared. *)
Lemma run_with_an_empty_field_witness :
  Js.truthy_field (App.selectedEntry (App.updateCode "" Scene.two_entries)) = true
  ∧ App.selectedEntryData (App.updateCode "" Scene.two_entries)
    = Some {| App.id := "1730000000001"; App.name := "My-Token";
              App.contractCode := "";
              App.testCode := "# Test code here" +:+ Js.nl |}
  ∧ App.isRunning
      (App.runCode (served Demo.env_ok Demo.disk)
         (App.updateCode "" Scene.two_entries)) = false.
Proof.
  split_and!; [reflexivity|reflexivity|].
  apply (run_with_an_empty_field Demo.env_ok Demo.disk
           (App.updateCode "" Scene.two_entries)
           {| App.id := "1730000000001"; App.name := "My-Token";
              App.contractCode := "";
              App.testCode := "# Test code here" +:+ Js.nl |});
    [reflexivity|reflexivity|by left].
Defined.


(** * The earlier handler *)

Section EarlierFacts.

Import Path.

Variable env : Env.

Lemma sanitized_no_slash en :
  has_slash en = false → has_slash (Earlier.sanitizedEntryName en) = false.
Proof.
  intros H. unfold Earlier.sanitizedEntryName, Text.replace_all, has_slash in *.
  rewrite has_char_map; [done|].
  intros a. by destruct a as [[] [] [] [] [] [] [] []].
Qed.

Lemma suffixed_plain x suffix :
  has_slash x = false → has_slash suffix = false →
  Js.has_char "y" suffix = true → plain (x +:+ suffix) = true.
Proof.
  intros Hx Hs Hy. apply (plain_intro "y"%char).
  - rewrite has_char_app. by rewrite Hy, orb_true_r.
  - done.
  - unfold has_slash in *. by rewrite has_char_app, Hx, Hs.
Qed.

Lemma earlier_file_render en suffix :
  has_slash en = false → has_slash suffix = false →
  Js.has_char "y" suffix = true →
  Path.join [uniqueTempDir env; Earlier.sanitizedEntryName en +:+ suffix]
  = uniqueTempDir env +:+ "/" +:+ Earlier.sanitizedEntryName en +:+ suffix
  ∧ parent (Path.join [uniqueTempDir env; Earlier.sanitizedEntryName en +:+ suffix])
    = uniqueTempDir env
  ∧ inside (uniqueTempDir env)
      (Path.join [uniqueTempDir env; Earlier.sanitizedEntryName en +:+ suffix])
    = true.
Proof.
  intros Hen Hs Hy.
  assert (plain (Earlier.sanitizedEntryName en +:+ suffix) = true) as Hp
    by by apply suffixed_plain; [apply sanitized_no_slash|..].
  assert (Path.join [uniqueTempDir env; Earlier.sanitizedEntryName en +:+ suffix]
          = render ((resolve (dirname env) ++ ["tmp"; workspaceName env])
                    ++ [Earlier.sanitizedEntryName en +:+ suffix])) as ->.
  { rewrite uniqueTempDir_render.
    apply join_render; [apply workspace_plains|by repeat constructor|done]. }
  split_and!.
  - rewrite uniqueTempDir_render. apply render_snoc.
    by destruct (resolve (dirname env)).
  - rewrite uniqueTempDir_render. by apply parent_render; [apply workspace_plains|].
  - by apply inside_workspace_snoc.
Qed.

End EarlierFacts.

(** X21: in the earlier handler a docker error is the caller's error. Once
    staging succeeded and the docker process exits, the response is 500
    with [Docker execution error: ] and the message when docker reported an
    error, and 200 with the report otherwise; in both cases the workspace
    is removed first, unless [rmSync] throws. *)
Theorem earlier_docker_error_is_reported env cc tc en w w1 r :
  missing_fields (request cc tc en) = false →
  Earlier.stage env cc tc en w = (Ok (), w1) →
  docker env = Exits r →
  (Earlier.handle env (request cc tc en) w).2
  = Responded
      match error r with
      | Some message =>
          {| statusCode := 500;
             body := Text ("Docker execution error: " +:+ message) |}
      | None => {| statusCode := 200; body := Text (Earlier.output en r) |}
      end
  ∧ (rm_fault env (uniqueTempDir env) = None →
     Fs.existsSync (uniqueTempDir env)
       (Earlier.handle env (request cc tc en) w).1 = false).
Proof.
  intros Hv Hs Hd. unfold Earlier.handle. rewrite Hv. simpl.
  unfold Earlier.run, Earlier.on_exit. rewrite Hs, Hd.
  destruct (error r); simpl; (split; [done|apply cleanup_removes]).
Qed.

(** X21 at the demo request with a docker process that errors. *)
Lemma earlier_docker_error_is_reported_witness :
  missing_fields (request "x = 1" "assert x == 1" "demo") = false
  ∧ Earlier.stage Demo.env_broken "x = 1" "assert x == 1" "demo" Demo.disk
    = (Ok (), (Earlier.stage Demo.env_broken "x = 1" "assert x == 1" "demo"
                 Demo.disk).2)
  ∧ docker Demo.env_broken
    = Exits {| error := Some "Command failed: docker run"; stdout := ""; stderr := "" |}
  ∧ (Earlier.handle Demo.env_broken (request "x = 1" "assert x == 1" "demo")
       Demo.disk).2
    = Responded
        {| statusCode := 500;
           body := Text "Docker execution error: Command failed: docker run" |}.
Proof.
  split_and!; [reflexivity|by vm_compute|reflexivity|].
  apply (earlier_docker_error_is_reported Demo.env_broken
           "x = 1" "assert x == 1" "demo" Demo.disk
           (Earlier.stage Demo.env_broken "x = 1" "assert x == 1" "demo"
              Demo.disk).2
           {| error := Some "Command failed: docker run"; stdout := ""; stderr := "" |}
           eq_refl);
    [by vm_compute|reflexivity].
Defined.

(** X22: in the earlier handler the two staged files never collide. For
    every entry name without path separator, [test] included, staging
    that meets no fault leaves the contract code in
    [<workspace>/<name>_contract.py] and the test code in
    [<workspace>/<name>_tests.py], two different files of the workspace,
    where [<name>] is the entry name with each dash replaced by an
    underscore. *)
Theorem earlier_staging_keeps_both_files env cc tc en w :
  Path.has_slash en = false →
  mkdir_fault env (uniqueTempDir env) = None →
  write_fault env (Earlier.contractFile env en) = None →
  write_fault env (Earlier.testFile env en) = None →
  Earlier.contractFile env en
  = uniqueTempDir env +:+ "/" +:+ Earlier.sanitizedEntryName en +:+ "_contract.py"
  ∧ Earlier.testFile env en
    = uniqueTempDir env +:+ "/" +:+ Earlier.sanitizedEntryName en +:+ "_tests.py"
  ∧ Earlier.contractFile env en ≠ Earlier.testFile env en
  ∧ (Earlier.stage env cc tc en w).1 = Ok ()
  ∧ files (Earlier.stage env cc tc en w).2 !! Earlier.contractFile env en = Some cc
  ∧ files (Earlier.stage env cc tc en w).2 !! Earlier.testFile env en = Some tc.
Proof.
  intros Hen Hm Hc Ht.
  destruct (earlier_file_render env en "_contract.py" Hen eq_refl eq_refl)
    as (Hcs & Hcp & _).
  destruct (earlier_file_render env en "_tests.py" Hen eq_refl eq_refl)
    as (Hts & Htp & _).
  fold (Earlier.contractFile env en) in Hcs, Hcp.
  fold (Earlier.testFile env en) in Hts, Htp.
  assert (Earlier.contractFile env en ≠ Earlier.testFile env en) as Hne.
  { rewrite Hcs, Hts. intros H.
    do 3 apply (inj (String.append _)) in H. done. }
  assert (∀ d : gset string,
    uniqueTempDir env ∈ d ∪ list_to_set (Path.ancestors (uniqueTempDir env)))
    as Hin.
  { intros d. apply elem_of_union_r, elem_of_list_to_set.
    rewrite uniqueTempDir_render. apply ancestors_self, workspace_plains. }
  split_and!; [done|done|done|..];
    unfold Earlier.stage, bind, Fs.mkdirSync, Fs.writeFileSync, ret, throw;
    rewrite Hm, Hc, Ht, Hcp, Htp; cbn [dirs set_dirs set_files];
    rewrite !bool_decide_eq_true_2 by apply Hin; cbn [fst snd files set_files].
  - done.
  - rewrite lookup_insert_ne by done. apply lookup_insert_eq.
  - apply lookup_insert_eq.
Qed.

(** X22 at the entry named [test]. *)
Lemma earlier_staging_keeps_both_files_witness :
  Path.has_slash "test" = false
  ∧ mkdir_fault Demo.env_ok (uniqueTempDir Demo.env_ok) = None
  ∧ write_fault Demo.env_ok (Earlier.contractFile Demo.env_ok "test") = None
  ∧ write_fault Demo.env_ok (Earlier.testFile Demo.env_ok "test") = None
  ∧ files (Earlier.stage Demo.env_ok "x = 1" "assert x == 1" "test" Demo.disk).2
      !! Earlier.contractFile Demo.env_ok "test"
    = Some "x = 1".
Proof.
  split_and!; [reflexivity|reflexivity|reflexivity|reflexivity|].
  apply (earlier_staging_keeps_both_files Demo.env_ok
           "x = 1" "assert x == 1" "test" Demo.disk eq_refl eq_refl eq_refl eq_refl).
Defined.
